(** * express-mongo-api: the authentication core

    A shallow embedding of [src/controllers/userController.js] and of the
    service, middleware and model code listed in the repository's README
    ([services/authService.js], [middleware/authMiddleware.js],
    [models/User.js]).

    JavaScript objects are finite maps from property names to values,
    Mongoose documents are records, promises and exceptions are an
    [outcome], and the clock, the random salt and the signing secret are
    explicit arguments. *)

From Stdlib Require Import ZArith Ascii.
From stdpp Require Import gmap strings list fin_maps.

Local Open Scope Z_scope.

(** ** JavaScript values, objects and errors *)

Inductive jsval : Type :=
  | JStr (s : string)
  | JNum (n : Z)
  | JDate (ms : Z).

Global Instance jsval_eq_dec : EqDecision jsval.
Proof. solve_decision. Defined.

Definition jsval_to_sum (v : jsval) : string + (Z + Z) :=
  match v with
  | JStr s => inl s
  | JNum n => inr (inl n)
  | JDate d => inr (inr d)
  end.

Definition jsval_of_sum (x : string + (Z + Z)) : jsval :=
  match x with
  | inl s => JStr s
  | inr (inl n) => JNum n
  | inr (inr d) => JDate d
  end.

Global Instance jsval_countable : Countable jsval.
Proof.
  apply (inj_countable' jsval_to_sum jsval_of_sum).
  by intros [].
Defined.

(** A plain JavaScript object with scalar properties. *)
Abbreviation obj := (gmap string jsval).

(** The values that JSON writes and reads back unchanged: strings and
    integers. A date is written as a string. *)
Definition jsonScalar (v : jsval) : bool :=
  match v with
  | JStr _ | JNum _ => true
  | JDate _ => false
  end.

Definition jsonObject (o : obj) : Prop :=
  map_Forall (fun _ v => jsonScalar v = true) o.

(** A JavaScript [Error]: its constructor name and its [message]. *)
Record JsError : Type := mkError { err_name : string; message : string }.

(** The result of awaiting a promise, or of a call that may throw. *)
Inductive outcome (A : Type) : Type :=
  | Resolved (a : A)
  | Thrown (e : JsError).
Arguments Resolved {A} a.
Arguments Thrown {A} e.

Definition bind {A B : Type} (m : outcome A) (k : A -> outcome B) : outcome B :=
  match m with
  | Resolved a => k a
  | Thrown e => Thrown e
  end.

Notation "'await' x <- m ; k" := (bind m (fun x => k))
  (at level 10, x name, m at level 100, k at level 200).

(** ** Strings *)

(** [s.toLowerCase()], on ASCII. *)
Definition ascii_toLowerCase (c : ascii) : ascii :=
  let n := N_of_ascii c in
  if ((65 <=? n) && (n <=? 90))%N then ascii_of_N (n + 32) else c.

Fixpoint toLowerCase (s : string) : string :=
  match s with
  | EmptyString => EmptyString
  | String c s' => String (ascii_toLowerCase c) (toLowerCase s')
  end.

(** [s.trim()], on ASCII: tab, line feed, vertical tab, form feed,
    carriage return and space are stripped from both ends. *)
Fixpoint trimStart (s : string) : string :=
  match s with
  | EmptyString => EmptyString
  | String c s' => if Ascii.is_space c then trimStart s' else s
  end.

Fixpoint trimEnd (s : string) : string :=
  match s with
  | EmptyString => EmptyString
  | String c s' =>
      match trimEnd s' with
      | EmptyString => if Ascii.is_space c then EmptyString else String c EmptyString
      | t => String c t
      end
  end.

Definition trim (s : string) : string := trimEnd (trimStart s).

(** [s.startsWith(pre)] *)
Definition startsWith (pre s : string) : bool := String.prefix pre s.

(** [s.split(sep)] for a one-character separator. *)
Fixpoint split (sep : ascii) (s : string) : list string :=
  match s with
  | EmptyString => [EmptyString]
  | String c s' =>
      if Ascii.eqb c sep then EmptyString :: split sep s'
      else match split sep s' with
           | w :: ws => String c w :: ws
           | [] => [String c EmptyString]
           end
  end.

Fixpoint string_forallb (f : ascii -> bool) (s : string) : bool :=
  match s with
  | EmptyString => true
  | String c s' => f c && string_forallb f s'
  end.

(** A string of ASCII characters: every code unit is below 128. On
    these strings [String.length], [toLowerCase] and [trim] are
    JavaScript's [length], [toLowerCase()] and [trim()]. Beyond them
    JavaScript counts UTF-16 code units, lower-cases by the Unicode
    tables and strips the white space of Unicode, which the functions
    here do not. *)
Definition isAscii (s : string) : bool :=
  string_forallb (fun c => (N_of_ascii c <? 128)%N) s.

(** No character of [s] is [sep]. *)
Definition lacks (sep : ascii) (s : string) : bool :=
  string_forallb (fun c => negb (Ascii.eqb c sep)) s.

(** [s.trim() === ''] *)
Definition isBlank (s : string) : bool := string_forallb Ascii.is_space s.

(** The base64url alphabet of a compact token segment. *)
Definition base64url_char (c : ascii) : bool :=
  let n := N_of_ascii c in
  (((65 <=? n) && (n <=? 90)) || ((97 <=? n) && (n <=? 122))
   || ((48 <=? n) && (n <=? 57)) || (n =? 45) || (n =? 95))%N.

Definition base64url (s : string) : bool := string_forallb base64url_char s.

(** ** HTTP requests and responses *)

Inductive Body : Type :=
  | Json (o : obj)
  | LoginJson (token : string) (user : obj).

Record Response : Type := mkResponse { status : Z; body : Body }.

(** [req.body] of the register and login routes; login reads only the
    email and the password. *)
Record ReqBody : Type :=
  mkBody { body_name : string; body_email : string; body_password : string }.

Record Request : Type := mkRequest {
  headers : gmap string string;
  req_body : ReqBody;
  user : option obj
}.

(** [req.header(name)]: header names are stored lower-cased. *)
Definition header (req : Request) (name : string) : option string :=
  headers req !! toLowerCase name.

(** What a middleware does: end the request with a response, or call
    [next()] with the (possibly updated) request. *)
Inductive Middleware : Type :=
  | Respond (r : Response)
  | Next (req : Request).

(** ** Dependencies

    The cryptographic primitives and the compact-token codec live in
    [bcryptjs] and [jsonwebtoken]; the schema's validators and the
    ObjectId cast live in the Mongoose model. They are interfaces here,
    with the laws the libraries guarantee. *)

(** JSON Web Signature primitives used by [jsonwebtoken]:
    [encodeSegment o] is base64url(JSON.stringify(o)), [decodeSegment]
    its inverse on objects of strings and integers, and
    [hmac alg key input] the base64url MAC. *)
Class Jws : Type := {
  encodeSegment : obj -> string;
  decodeSegment : string -> option obj;
  hmac : string -> string -> string -> string;
  decodeSegment_encodeSegment :
    forall o, jsonObject o -> decodeSegment (encodeSegment o) = Some o;
  encode_base64url : forall o, base64url (encodeSegment o) = true;
  hmac_base64url : forall alg key input, base64url (hmac alg key input) = true;
  hmac_nonempty : forall alg key input, hmac alg key input <> EmptyString
}.

(** Modelled from the spec: the key derivation inside bcryptjs is not
    under src/. Section 4.1 has it deliberately slow and deterministic
    given the plaintext and the salt: the work factor, the 22 characters
    of the encoded salt and the key give the 31 characters of the
    encoded digest. *)
Class BcryptCore : Type := {
  bcrypt_raw : Z -> string -> string -> string;
  bcrypt_raw_length : forall r s k, String.length (bcrypt_raw r s k) = 31%nat
}.

(** ** The User model (models/User.js) *)

(** A stored user document. The schema declares [name], [email] and
    [password]; [timestamps: true] adds [createdAt] and [updatedAt], and
    Mongoose adds [_id] and the version key [__v]. *)
Record UserDoc : Type := mkUser {
  _id : string;
  name : string;
  email : string;
  password : string;
  createdAt : Z;
  updatedAt : Z;
  __v : Z
}.

(** The parts of the Mongoose model that the controllers rely on but do
    not spell out: the schema's validators, run by [save()], and the cast
    of a query value to an ObjectId, run by [findById]. *)
Class UserSchema : Type := {
  schemaValid : UserDoc -> bool;
  castObjectId : jsval -> option string
}.

(** The users collection. *)
Abbreviation collection := (list UserDoc).

(** [doc.toObject()] *)
Definition toObject (d : UserDoc) : obj :=
  {[ "_id" := JStr (_id d);
     "name" := JStr (name d);
     "email" := JStr (email d);
     "password" := JStr (password d);
     "createdAt" := JDate (createdAt d);
     "updatedAt" := JDate (updatedAt d);
     "__v" := JNum (__v d) ]}.

(** [.select("-password")]: the projection that leaves the field out. *)
Definition select_minus (field : string) (o : obj) : obj := delete field o.

(** The schema's [toJSON] transform: [delete ret.password; return ret]. *)
Definition toJSON_transform (ret : obj) : obj := delete "password" ret.

(** [User.findOne({ email })]: Mongoose casts the filter by the schema,
    whose [lowercase: true] setter lower-cases the email; the answer is
    the first document whose stored email is that one. *)
Definition User_findOne (e : string) (db : collection) : outcome (option UserDoc) :=
  Resolved (List.find (fun d => String.eqb (email d) (toLowerCase e)) db).

Definition CastError : JsError :=
  mkError "CastError" "Cast to ObjectId failed".

Definition ValidationError : JsError :=
  mkError "ValidationError" "User validation failed".

Definition DuplicateKeyError : JsError :=
  mkError "MongoServerError" "E11000 duplicate key error".

Definition TypeError (msg : string) : JsError := mkError "TypeError" msg.

(** The Identity Claim of a user: [{ id: user._id, email: user.email }]. *)
Definition identityClaim (u : UserDoc) : obj :=
  {[ "id" := JStr (_id u); "email" := JStr (email u) ]}.

Section UserModel.
Context `{!UserSchema}.

(** [User.findById(id)]: an undefined id finds nothing, a value that is
    not an ObjectId is a cast error. *)
Definition User_findById (id : option jsval) (db : collection)
  : outcome (option UserDoc) :=
  match id with
  | None => Resolved None
  | Some v =>
      match castObjectId v with
      | None => Thrown CastError
      | Some oid => Resolved (List.find (fun d => String.eqb (_id d) oid) db)
      end
  end.

(** [new User({ name, email, password }).save()] with the id and the
    time the driver picks. The constructor runs the schema's setters:
    [trim: true] on the name, [lowercase: true] on the email. Then come
    validation, the unique index on [email], and the insert. *)
Definition User_save (oid : string) (now : Z) (n e p : string) (db : collection)
  : outcome collection :=
  let d := mkUser oid (trim n) (toLowerCase e) p now now 0 in
  if negb (schemaValid d) then Thrown ValidationError
  else if existsb (fun d' => String.eqb (email d') (email d)) db
       then Thrown DuplicateKeyError
  else Resolved (db ++ [d]).

End UserModel.

(** ** bcryptjs: the Credential Hasher

    [bcryptjs] is a dependency whose code is not in the repository; its
    three entry points are modelled from section 4.1 of the
    specification, at the level of the hash string. *)

(** The alphabet of bcrypt's radix-64 encoding: [./A-Za-z0-9]. *)
Definition bcrypt64_char (c : ascii) : bool :=
  let n := N_of_ascii c in
  ((n =? 46) || (n =? 47) || ((65 <=? n) && (n <=? 90))
   || ((97 <=? n) && (n <=? 122)) || ((48 <=? n) && (n <=? 57)))%N.

Definition bcrypt64 (s : string) : bool := string_forallb bcrypt64_char s.

(** The encoded form of the 16 random bytes of a salt. *)
Definition validSalt (s : string) : Prop :=
  String.length s = 22%nat /\ bcrypt64 s = true.

Definition digit (n : Z) : ascii := ascii_of_N (Z.to_N (48 + n)).

(** The parameters a hash embeds: revision, work factor and salt. *)
Record SaltParams : Type :=
  mkSalt { minor : ascii; rounds : Z; real_salt : string }.

(** Modelled from the spec: the layout of a bcryptjs hash is not under
    src/. Section 3 has the hash embed the work factor and the salt:
    [$2<rev>$<cost>$<salt>], the cost written as two decimal digits. *)
Definition render (ps : SaltParams) : string :=
  String "$" (String "2" (String (minor ps) (String "$"
    (String (digit (rounds ps / 10)) (String (digit (rounds ps mod 10))
      (String "$" (real_salt ps))))))).

Definition bcryptError (msg : string) : JsError := mkError "Error" msg.

Definition is_revision (c : ascii) : bool :=
  Ascii.eqb c "a" || Ascii.eqb c "b" || Ascii.eqb c "y".

(** Modelled from the spec: the cost read back from its two digits. *)
Definition parse_cost (d1 d2 : ascii) : option Z :=
  match Ascii.is_nat d1, Ascii.is_nat d2 with
  | Some a, Some b => Some (10 * Z.of_nat a + Z.of_nat b)
  | _, _ => None
  end.

(** Modelled from the spec: bcryptjs is a dependency whose code is not
    under src/. Section 4.1 has the hash embed its parameters and has
    verification fail only on a hash of the wrong format or version:
    reading the parameters back out of the first 29 characters
    [$2<rev>$<cost>$<salt>] fails on an unknown version or revision, a
    cost that is not two digits within 4..31, or a salt that is not 22
    characters of the alphabet. *)
Definition parse_salt (salt : string) : outcome SaltParams :=
  match salt with
  | String "$" (String "2" (String m (String "$" rest))) =>
      if negb (is_revision m) then Thrown (bcryptError "Invalid salt revision")
      else
        match rest with
        | String d1 (String d2 (String "$" enc)) =>
            match parse_cost d1 d2 with
            | Some r =>
                if (r <? 4) || (31 <? r)
                then Thrown (bcryptError "Illegal number of rounds (4-31)")
                else
                  let s := String.substring 0 22 enc in
                  if (String.length s =? 22)%nat && bcrypt64 s
                  then Resolved (mkSalt m r s)
                  else Thrown (bcryptError "Illegal salt length")
            | None => Thrown (bcryptError "Missing salt rounds")
            end
        | _ => Thrown (bcryptError "Missing salt rounds")
        end
  | _ => Thrown (bcryptError "Invalid salt version")
  end.

(** A hash of the documented layout: 60 characters,
    [$2<a|b|y>$<cost>$<salt><digest>] with a two-digit cost within
    4..31, 22 characters of salt and 31 of digest. *)
Inductive wellFormedHash : string -> Prop :=
  | wellFormed (ps : SaltParams) (digest : string) :
      is_revision (minor ps) = true ->
      4 <= rounds ps <= 31 ->
      validSalt (real_salt ps) ->
      String.length digest = 31%nat ->
      wellFormedHash (render ps +:+ digest).

(** Modelled from the spec: bcryptjs's constant-time comparison is not
    under src/. Section 4.1 asks for an equality check whose work does
    not depend on the contents: the lengths and every character pair are
    xor-ed into one accumulator, which is tested once at the end. *)
Fixpoint xor_fold (known unknown : string) (diff : N) : N :=
  match known with
  | EmptyString => diff
  | String c k =>
      match unknown with
      | String d u => xor_fold k u (N.lor diff (N.lxor (N_of_ascii c) (N_of_ascii d)))
      | EmptyString => xor_fold k EmptyString (N.lor diff (N_of_ascii c))
      end
  end.

(** Modelled from the spec: the comparison answers whether nothing
    differed. *)
Definition safeStringCompare (known unknown : string) : bool :=
  (xor_fold known unknown
     (N.lxor (N.of_nat (String.length known)) (N.of_nat (String.length unknown)))
   =? 0)%N.

Section Bcrypt.
Context `{!BcryptCore}.

(** Modelled from the spec: [bcrypt.genSalt(rounds)] is not under src/.
    Section 4.1 has a salt generated at random on every call and
    combined with the work factor; [random] is the encoded salt the
    generator drew. *)
Definition genSalt (rounds : Z) (random : string) : outcome string :=
  let r := if rounds <? 4 then 4 else if 31 <? rounds then 31 else rounds in
  Resolved (render (mkSalt "a" r random)).

(** Modelled from the spec: the digest of a password under the
    parameters of a hash; the key is the password with its terminating
    zero byte. *)
Definition digest (ps : SaltParams) (s : string) : string :=
  bcrypt_raw (rounds ps) (real_salt ps) (s +:+ String zero EmptyString).

(** Modelled from the spec: [bcrypt.hash(s, salt)] is not under src/.
    Section 4.1 has the hash deterministic in the plaintext and the
    salt, and self-describing: the parameters followed by the digest. *)
Definition bcrypt_hash (s salt : string) : outcome string :=
  await ps <- parse_salt salt;
  Resolved (render ps +:+ digest ps s).

(** Modelled from the spec: [bcrypt.compare(s, hash)] is not under src/.
    Section 4.1 has it re-derive the hash of [s] under the parameters
    embedded in [hash] and compare the two in constant time, answering
    false on a mismatch; a string that has not the length of a hash
    cannot match. *)
Definition bcrypt_compare (s hash : string) : outcome bool :=
  if negb (String.length hash =? 60)%nat then Resolved false
  else
    await comp <- bcrypt_hash s (String.substring 0 29 hash);
    Resolved (safeStringCompare comp hash).

(** *** services/authService.js *)

(** [hashPassword]: a salt with 10 rounds, then the hash. *)
Definition hashPassword (random : string) (password : string) : outcome string :=
  await salt <- genSalt 10 random;
  bcrypt_hash password salt.

Definition comparePasswords (password hashedPassword : string) : outcome bool :=
  bcrypt_compare password hashedPassword.

End Bcrypt.

(** ** jsonwebtoken: the Token Issuer and the Token Verifier

    [jsonwebtoken] is a dependency; [sign] and [verify] follow its
    documented behaviour for the options this repository passes. A token
    is [header.payload.signature], each part base64url. *)

Definition JsonWebTokenError (msg : string) : JsError :=
  mkError "JsonWebTokenError" msg.

Definition TokenExpiredError : JsError :=
  mkError "TokenExpiredError" "jwt expired".

Definition SyntaxError : JsError :=
  mkError "SyntaxError" "Unexpected token in JSON".

(** [Math.floor(Date.now() / 1000)] *)
Definition clockTimestamp (now : Z) : Z := now / 1000.

Section Jsonwebtoken.
Context `{!Jws}.

(** The signing input: the first two segments. *)
Definition securedInput (hdr payload : obj) : string :=
  encodeSegment hdr +:+ String "." (encodeSegment payload).

(** [jws.sign]: the signing input, a dot and its MAC. *)
Definition jws_sign (hdr payload : obj) (alg secret : string) : string :=
  securedInput hdr payload
  +:+ String "." (hmac alg secret (securedInput hdr payload)).

(** [jwt.sign(payload, secret, { expiresIn, algorithm })] for an object
    payload without [iat] and [exp] of its own: the payload is stamped
    with [iat], the clock in seconds, and [exp = iat + expiresIn], then
    signed. An empty secret is refused. *)
Definition jwt_sign (payload : obj) (secret : string) (expiresIn : Z)
    (algorithm : string) (now : Z) : outcome string :=
  if decide (secret = EmptyString)
  then Thrown (mkError "Error" "secretOrPrivateKey must have a value")
  else
    let timestamp := clockTimestamp now in
    let payload' := <["exp" := JNum (timestamp + expiresIn)]>
                      (<["iat" := JNum timestamp]> payload) in
    let hdr : obj := {[ "alg" := JStr algorithm; "typ" := JStr "JWT" ]} in
    Resolved (jws_sign hdr payload' algorithm secret).

(** The algorithms [verify] accepts by default for a shared secret, or
    only [none] when there is neither a signature nor a secret. *)
Definition allowedAlgorithms (hasSignature : bool) (secret : string) : list string :=
  if negb hasSignature && bool_decide (secret = EmptyString) then ["none"]
  else ["HS256"; "HS384"; "HS512"].

(** [jws.verify]: recompute the MAC over the first two segments. *)
Definition jws_verify (h p sg alg secret : string) : bool :=
  if String.eqb alg "none" then String.eqb sg EmptyString
  else String.eqb sg (hmac alg secret (h +:+ String "." p)).

(** [jwt.verify(token, secret)]: the structure, the signature and the
    expiry are checked in this order; the decoded payload is returned. *)
Definition jwt_verify (token : string) (secret : string) (now : Z) : outcome obj :=
  if decide (token = EmptyString)
  then Thrown (JsonWebTokenError "jwt must be provided")
  else
    match split "." token with
    | [h; p; sg] =>
        match decodeSegment h with
        | None => Thrown (JsonWebTokenError "invalid token")
        | Some hdr =>
            match decodeSegment p with
            | None => Thrown SyntaxError
            | Some payload =>
                let hasSignature := negb (isBlank sg) in
                if negb hasSignature && negb (bool_decide (secret = EmptyString))
                then Thrown (JsonWebTokenError "jwt signature is required")
                else if hasSignature && bool_decide (secret = EmptyString)
                then Thrown (JsonWebTokenError "secret or public key must be provided")
                else
                  match hdr !! "alg" with
                  | Some (JStr alg) =>
                      if negb (bool_decide (alg ∈ allowedAlgorithms hasSignature secret))
                      then Thrown (JsonWebTokenError "invalid algorithm")
                      else if negb (jws_verify h p sg alg secret)
                      then Thrown (JsonWebTokenError "invalid signature")
                      else
                        match payload !! "exp" with
                        | None => Resolved payload
                        | Some (JNum exp) =>
                            if exp <=? clockTimestamp now
                            then Thrown TokenExpiredError
                            else Resolved payload
                        | Some _ => Thrown (JsonWebTokenError "invalid exp value")
                        end
                  | _ => Thrown (JsonWebTokenError "invalid algorithm")
                  end
            end
        end
    | _ => Thrown (JsonWebTokenError "jwt malformed")
    end.

(** *** services/authService.js *)

(** [generateToken(user)]: the claim [{ id, email }] signed with
    [process.env.JWT_SECRET], expiring in one hour. A variable that is
    not set reads as the empty string. *)
Definition generateToken (u : UserDoc) (JWT_SECRET : string) (now : Z)
  : outcome string :=
  jwt_sign (identityClaim u) JWT_SECRET 3600 "HS256" now.

(** The payload of a token of [generateToken]: the claim stamped with
    [iat] and [exp], and the token itself. *)
Definition stampedClaim (u : UserDoc) (issued : Z) : obj :=
  <["exp" := JNum (clockTimestamp issued + 3600)]>
    (<["iat" := JNum (clockTimestamp issued)]> (identityClaim u)).

Definition issuedToken (u : UserDoc) (secret : string) (issued : Z) : string :=
  jws_sign {[ "alg" := JStr "HS256"; "typ" := JStr "JWT" ]}
    (stampedClaim u issued) "HS256" secret.

(** *** middleware/authMiddleware.js *)

Definition accessDenied : Response :=
  mkResponse 401 (Json {[ "message" := JStr "Access Denied";
                          "error" := JStr "No token provided" ]}).

Definition invalidToken (error : JsError) : Response :=
  mkResponse 401 (Json {[ "message" := JStr "Invalid Token";
                          "error" := JStr (message error) ]}).

(** [authHeader.split(" ")[1]]; [undefined] is no token for [verify]. *)
Definition bearerToken (authHeader : string) : string :=
  default EmptyString (split " " authHeader !! 1%nat).

Definition authenticateUser (JWT_SECRET : string) (now : Z) (req : Request)
  : Middleware :=
  match header req "Authorization" with
  | Some authHeader =>
      if negb (startsWith "Bearer " authHeader) then Respond accessDenied
      else
        match jwt_verify (bearerToken authHeader) JWT_SECRET now with
        | Resolved decoded =>
            Next (mkRequest (headers req) (req_body req) (Some decoded))
        | Thrown error => Respond (invalidToken error)
        end
  | None => Respond accessDenied
  end.

End Jsonwebtoken.

(** ** controllers/userController.js *)

Definition message_body (msg : string) : Body := Json {[ "message" := JStr msg ]}.
Definition error_body (msg : string) : Body := Json {[ "error" := JStr msg ]}.

Section Controllers.
Context `{!Jws, !BcryptCore, !UserSchema}.

(** [registerUser]: [oid] and [now] are the id and the time the new
    document gets, [random] the salt drawn for its password. *)
Definition registerUser (oid : string) (now : Z) (random : string)
    (req : Request) (db : collection) : Response * collection :=
  let n := body_name (req_body req) in
  let e := body_email (req_body req) in
  let p := body_password (req_body req) in
  match
    (await existingUser <- User_findOne e db;
     match existingUser with
     | Some _ => Resolved (mkResponse 400 (message_body "User already exists"), db)
     | None =>
         await hashedPassword <- hashPassword random p;
         await db' <- User_save oid now n e hashedPassword db;
         Resolved (mkResponse 201 (message_body "User registered successfully"), db')
     end)
  with
  | Resolved r => r
  | Thrown _ => (mkResponse 500 (error_body "Error registering user"), db)
  end.

Definition loginUser (JWT_SECRET : string) (now : Z)
    (req : Request) (db : collection) : Response :=
  let e := body_email (req_body req) in
  let p := body_password (req_body req) in
  match
    (await found <- User_findOne e db;
     match found with
     | None => Resolved (mkResponse 400 (message_body "Invalid credentials"))
     | Some u =>
         await same <- comparePasswords p (password u);
         if negb same
         then Resolved (mkResponse 400 (message_body "Invalid credentials"))
         else
           await token <- generateToken u JWT_SECRET now;
           Resolved (mkResponse 200
             (LoginJson token {[ "id" := JStr (_id u);
                                 "name" := JStr (name u);
                                 "email" := JStr (email u) ]}))
     end)
  with
  | Resolved r => r
  | Thrown _ => mkResponse 500 (error_body "Error logging in")
  end.

(** [getProfile]: [req.user.id] throws when no claim is attached. *)
Definition getProfile (req : Request) (db : collection) : Response :=
  match
    (await claim <- match user req with
                    | Some c => Resolved c
                    | None => Thrown (TypeError "Cannot read properties of undefined")
                    end;
     await found <- User_findById (claim !! "id") db;
     match found with
     | None => Resolved (mkResponse 404 (message_body "User not found"))
     | Some d =>
         Resolved (mkResponse 200
           (Json (toJSON_transform (select_minus "password" (toObject d)))))
     end)
  with
  | Resolved r => r
  | Thrown _ => mkResponse 500 (error_body "Error fetching profile")
  end.

(** [GET /api/users/profile]: the Access Guard, then the controller. *)
Definition profileRoute (JWT_SECRET : string) (now : Z)
    (req : Request) (db : collection) : Response :=
  match authenticateUser JWT_SECRET now req with
  | Respond r => r
  | Next req' => getProfile req' db
  end.

End Controllers.

(** ** Patterns: what the schema's [match] validator tests *)

(** A regular expression over characters. *)
Inductive regex : Type :=
  | Never
  | Eps
  | Chars (f : ascii -> bool)
  | Cat (r1 r2 : regex)
  | Alt (r1 r2 : regex)
  | Star (r : regex).

(** [r+] and [r?] *)
Definition Plus (r : regex) : regex := Cat r (Star r).
Definition Opt (r : regex) : regex := Alt Eps r.

Fixpoint nullable (r : regex) : bool :=
  match r with
  | Never => false
  | Eps => true
  | Chars _ => false
  | Cat r1 r2 => nullable r1 && nullable r2
  | Alt r1 r2 => nullable r1 || nullable r2
  | Star _ => true
  end.

(** What is left of [r] after reading [c]. *)
Fixpoint deriv (c : ascii) (r : regex) : regex :=
  match r with
  | Never | Eps => Never
  | Chars f => if f c then Eps else Never
  | Cat r1 r2 =>
      if nullable r1 then Alt (Cat (deriv c r1) r2) (deriv c r2)
      else Cat (deriv c r1) r2
  | Alt r1 r2 => Alt (deriv c r1) (deriv c r2)
  | Star r1 => Cat (deriv c r1) (Star r1)
  end.

(** [/^r$/.test(s)] *)
Fixpoint matches (r : regex) (s : string) : bool :=
  match s with
  | EmptyString => nullable r
  | String c s' => matches (deriv c r) s'
  end.

(** The strings of a pattern. *)
Inductive lang : regex -> string -> Prop :=
  | lang_Eps : lang Eps EmptyString
  | lang_Chars f c : f c = true -> lang (Chars f) (String c EmptyString)
  | lang_Cat r1 r2 s1 s2 :
      lang r1 s1 -> lang r2 s2 -> lang (Cat r1 r2) (s1 +:+ s2)
  | lang_Alt_l r1 r2 s : lang r1 s -> lang (Alt r1 r2) s
  | lang_Alt_r r1 r2 s : lang r2 s -> lang (Alt r1 r2) s
  | lang_Star_nil r : lang (Star r) EmptyString
  | lang_Star_cons r s1 s2 :
      lang r s1 -> lang (Star r) s2 -> lang (Star r) (s1 +:+ s2).

(** ** The User schema of the README (models/User.js) *)

(** [\w] *)
Definition word (c : ascii) : bool :=
  let n := N_of_ascii c in
  (((65 <=? n) && (n <=? 90)) || ((97 <=? n) && (n <=? 122))
   || ((48 <=? n) && (n <=? 57)) || (n =? 95))%N.

(** [[.-]] *)
Definition dotOrDash (c : ascii) : bool := Ascii.eqb c "." || Ascii.eqb c "-".

(** [\w+([.-]?\w+)*] *)
Definition labels : regex :=
  Cat (Plus (Chars word)) (Star (Cat (Opt (Chars dotOrDash)) (Plus (Chars word)))).

(** [\.\w{2,3}] *)
Definition topLevel : regex :=
  Cat (Chars (Ascii.eqb ".")) (Cat (Chars word) (Cat (Chars word) (Opt (Chars word)))).

(** The pattern of the email field:
    [/^\w+([.-]?\w+)*@\w+([.-]?\w+)*(\.\w{2,3})+$/]. *)
Definition emailPattern : regex :=
  Cat labels (Cat (Chars (Ascii.eqb "@")) (Cat labels (Plus topLevel))).

(** Mongoose's validators on a string: [required] refuses the empty
    string, [minlength] compares [v.length], which on a string of ASCII
    characters is the number of its characters, and [match] tests the
    pattern unless the value is empty. *)
Definition required (v : string) : bool :=
  match v with EmptyString => false | _ => true end.

Definition minlength (n : nat) (v : string) : bool := (n <=? String.length v)%nat.

Definition matchPattern (r : regex) (v : string) : bool :=
  match v with EmptyString => true | _ => matches r v end.

(** The validators of the schema, on a document whose name has been
    trimmed and whose email has been lower-cased by the setters. *)
Definition userValid (d : UserDoc) : bool :=
  required (name d) && minlength 2 (name d)
  && (required (email d) && matchPattern emailPattern (email d))
  && (required (password d) && minlength 6 (password d)).

(** The model with the README's schema and a given ObjectId cast. *)
Definition readmeSchema (cast : jsval -> option string) : UserSchema :=
  {| schemaValid := userValid; castObjectId := cast |}.

(** The characters of an accepted email besides the at sign. *)
Definition addressChar (c : ascii) : bool := word c || dotOrDash c.

(** Every character class of a pattern lies within [P]. *)
Fixpoint within (P : ascii -> bool) (r : regex) : Prop :=
  match r with
  | Never | Eps => True
  | Chars f => forall c, f c = true -> P c = true
  | Cat r1 r2 | Alt r1 r2 => within P r1 /\ within P r2
  | Star r1 => within P r1
  end.

(** A response body that has no [password] property: neither the
    object itself nor the [user] object of a login response. *)
Definition hidesPassword (b : Body) : Prop :=
  match b with
  | Json o => o !! "password" = None
  | LoginJson _ u => u !! "password" = None
  end.

(** ** Reference instances

    Small executable instances of the three interfaces, so that the
    model runs on concrete requests. *)

Module Reference.

(** A segment is the binary expansion of the object's code. *)
Fixpoint bits_of_pos (p : positive) : string :=
  match p with
  | xH => EmptyString
  | xO q => String "0" (bits_of_pos q)
  | xI q => String "1" (bits_of_pos q)
  end.

Fixpoint pos_of_bits (s : string) : option positive :=
  match s with
  | EmptyString => Some xH
  | String c s' =>
      if Ascii.eqb c "0" then xO <$> pos_of_bits s'
      else if Ascii.eqb c "1" then xI <$> pos_of_bits s'
      else None
  end.

Lemma pos_of_bits_of_pos (p : positive) : pos_of_bits (bits_of_pos p) = Some p.
Proof. induction p as [q IH|q IH|]; simpl; by rewrite ?IH. Qed.

Lemma bits_base64url (p : positive) : base64url (bits_of_pos p) = true.
Proof. induction p as [q IH|q IH|]; simpl; auto. Qed.

(** A MAC is a tag, the key with foreign characters masked, and the
    length of the input. *)
Fixpoint mask (s : string) : string :=
  match s with
  | EmptyString => EmptyString
  | String c s' => String (if base64url_char c then c else "_"%char) (mask s')
  end.

Lemma mask_base64url (s : string) : base64url (mask s) = true.
Proof.
  unfold base64url. induction s as [|c s IH]; [done|]. simpl. rewrite IH.
  destruct (base64url_char c) eqn:Hc; [by rewrite Hc|done].
Qed.

Lemma base64url_app (s t : string) :
  base64url s = true -> base64url t = true -> base64url (s +:+ t) = true.
Proof.
  unfold base64url. intros Hs Ht. induction s as [|c s IH]; [done|].
  simpl in Hs. apply andb_true_iff in Hs as [Hc Hs].
  simpl. rewrite Hc. by apply IH.
Qed.

#[export] Instance jws : Jws.
Proof.
  refine {|
    encodeSegment o := bits_of_pos (encode o);
    decodeSegment s := pos_of_bits s ≫= decode;
    hmac alg key input :=
      String "m" (mask (alg +:+ key)
                  +:+ bits_of_pos (Pos.of_succ_nat (String.length input)))
  |}.
  - intros o _. rewrite pos_of_bits_of_pos. simpl. apply decode_encode.
  - intros o. apply bits_base64url.
  - intros alg key input.
    apply (base64url_app (String "m" (mask (alg +:+ key)))).
    + apply mask_base64url.
    + apply bits_base64url.
  - intros alg key input. discriminate.
Defined.

(** A digest is the key, cut or padded to 31 characters. *)
Fixpoint take_pad (n : nat) (s : string) : string :=
  match n with
  | O => EmptyString
  | S n' =>
      match s with
      | EmptyString => String "." (take_pad n' EmptyString)
      | String c s' => String c (take_pad n' s')
      end
  end.

Lemma take_pad_length (n : nat) (s : string) : String.length (take_pad n s) = n.
Proof. revert s. induction n as [|n IH]; intros [|c s]; simpl; by rewrite ?IH. Qed.

#[export] Instance bcryptCore : BcryptCore.
Proof.
  refine {| bcrypt_raw r s k := take_pad 31 k |}.
  intros r s k. apply take_pad_length.
Defined.

(** Every document is valid and every string is an ObjectId. *)
#[export] Instance userSchema : UserSchema := {|
  schemaValid d := true;
  castObjectId v := match v with JStr s => Some s | _ => None end
|}.

End Reference.

(** ** A run of the README's testing guide on the reference instances *)

Module Scenario.
Import Reference.

Definition JWT_SECRET : string := "your_jwt_secret_key_here".

(** 2024-03-20T10:00:00.999Z, in milliseconds. *)
Definition t0 : Z := 1710928800999.

Definition salt0 : string := "N9qo8uLOickgx2ZMRZoMye".
Definition oid0 : string := "65fab2e0c4a1b2d3e4f5a6b7".

Definition noBody : ReqBody := mkBody EmptyString EmptyString EmptyString.

Definition registerJohn : Request :=
  mkRequest ∅ (mkBody "John Doe" "john@example.com" "123456") None.

Definition wrongPassword : Request :=
  mkRequest ∅ (mkBody EmptyString "john@example.com" "654321") None.

Definition johnHash : string :=
  match hashPassword salt0 "123456" with
  | Resolved h => h
  | Thrown _ => EmptyString
  end.

Definition john : UserDoc :=
  mkUser oid0 "John Doe" "john@example.com" johnHash t0 t0 0.

Definition johnToken : string := issuedToken john JWT_SECRET t0.

(** A request that carries only an [Authorization] header. *)
Definition authorized (value : string) : Request :=
  mkRequest {[ "authorization" := value ]} noBody None.

Definition bearer (token : string) : Request :=
  authorized ("Bearer " +:+ token).

Definition anonymous : Request := mkRequest ∅ noBody None.

(** A request to which the Access Guard attached John's claim. *)
Definition johnsRequest : Request :=
  mkRequest (headers (bearer johnToken)) noBody (Some (stampedClaim john t0)).

(** One second before the token of [t0] expires, and the instant it
    does: a millisecond later, when the clock shows the next second. *)
Definition inTime : Z := t0 + 3599000.
Definition expired : Z := t0 + 3599001.

(** The salt of another call. *)
Definition salt1 : string := "abcdefghijklmnopqrstuv".

(** What a successful login of John answers. *)
Definition johnsLogin : Body :=
  LoginJson johnToken {[ "id" := JStr oid0; "name" := JStr "John Doe";
                         "email" := JStr "john@example.com" ]}.

(** A registration with a one-character password, a padded name and
    capitals in the email. *)
Definition registerAl : Request :=
  mkRequest ∅ (mkBody " Al " "Al@Example.com" "1") None.

(** John's registration as typed: the name padded, the email with
    capitals. *)
Definition registerJohnAsTyped : Request :=
  mkRequest ∅ (mkBody "  John Doe " "John@Example.COM" "123456") None.

(** John's login with his email in capitals, and the same with a wrong
    password. *)
Definition loginJOHN : Request :=
  mkRequest ∅ (mkBody EmptyString "JOHN@EXAMPLE.COM" "123456") None.

Definition wrongPasswordJOHN : Request :=
  mkRequest ∅ (mkBody EmptyString "JOHN@EXAMPLE.COM" "654321") None.

(** A token signed with the server's secret whose [id] is a number. *)
Definition numericIdToken : string :=
  jws_sign {[ "alg" := JStr "HS256"; "typ" := JStr "JWT" ]}
    {[ "id" := JNum 7 ]} "HS256" JWT_SECRET.

End Scenario.

(** * Properties *)

(** ** Strings *)

Lemma app_String (c : ascii) (s t : string) : String c s +:+ t = String c (s +:+ t).
Proof. reflexivity. Qed.

Lemma app_not_empty (s t : string) (c : ascii) : s +:+ String c t <> EmptyString.
Proof. by destruct s. Qed.

Lemma app_assoc_string (s t u : string) : (s +:+ t) +:+ u = s +:+ (t +:+ u).
Proof.
  induction s as [|c s IH]; [done|].
  change (String c ((s +:+ t) +:+ u) = String c (s +:+ (t +:+ u))).
  by rewrite IH.
Qed.

Lemma length_app (s t : string) :
  String.length (s +:+ t) = (String.length s + String.length t)%nat.
Proof. induction s as [|c s IH]; simpl; by rewrite ?IH. Qed.

Lemma app_inj_length (s1 s2 t1 t2 : string) :
  String.length s1 = String.length s2 -> s1 +:+ t1 = s2 +:+ t2 -> s1 = s2.
Proof.
  revert s2. induction s1 as [|c s1 IH]; intros [|d s2]; try done.
  simpl. intros [= Hlen] [= -> Heq].
  f_equal. by apply IH.
Qed.

Lemma substring_prefix (s t : string) :
  String.substring 0 (String.length s) (s +:+ t) = s.
Proof.
  induction s as [|c s IH]; simpl.
  - by destruct t.
  - by rewrite IH.
Qed.

Lemma substring_whole (s : string) : String.substring 0 (String.length s) s = s.
Proof. induction s as [|c s IH]; simpl; by rewrite ?IH. Qed.

Lemma string_forallb_app (f : ascii -> bool) (s t : string) :
  string_forallb f (s +:+ t) = string_forallb f s && string_forallb f t.
Proof.
  induction s as [|c s IH]; [done|].
  rewrite app_String. simpl. rewrite IH. by rewrite andb_assoc.
Qed.

Lemma string_forallb_impl (f g : ascii -> bool) (s : string) :
  (forall c, f c = true -> g c = true) ->
  string_forallb f s = true -> string_forallb g s = true.
Proof.
  intros Hfg. induction s as [|c s IH]; [done|]. simpl.
  intros [Hc Hs]%andb_true_iff. rewrite (Hfg _ Hc). by apply IH.
Qed.

Lemma lacks_app (sep : ascii) (s t : string) :
  lacks sep (s +:+ t) = lacks sep s && lacks sep t.
Proof. apply string_forallb_app. Qed.

Lemma lacks_String (sep c : ascii) (s : string) :
  lacks sep (String c s) = negb (Ascii.eqb c sep) && lacks sep s.
Proof. reflexivity. Qed.

(** Splitting a string that has no separator, or one in a known place. *)
Lemma split_lacks (sep : ascii) (s : string) :
  lacks sep s = true -> split sep s = [s].
Proof.
  induction s as [|c s IH]; [done|]. simpl.
  intros [Hc Hs]%andb_true_iff. apply negb_true_iff in Hc.
  rewrite Hc. by rewrite (IH Hs).
Qed.

Lemma split_app (sep : ascii) (s t : string) :
  lacks sep s = true -> split sep (s +:+ String sep t) = s :: split sep t.
Proof.
  induction s as [|c s IH].
  - intros _. simpl. by rewrite Ascii.eqb_refl.
  - intros [Hc Hs]%andb_true_iff. apply negb_true_iff in Hc.
    rewrite app_String. simpl. rewrite Hc. by rewrite (IH Hs).
Qed.

Lemma base64url_lacks (sep : ascii) (s : string) :
  base64url_char sep = false -> base64url s = true -> lacks sep s = true.
Proof.
  intros Hsep. apply string_forallb_impl. intros c Hc.
  apply negb_true_iff. destruct (Ascii.eqb_spec c sep) as [->|]; [|done].
  congruence.
Qed.

Lemma base64url_not_blank (s : string) :
  base64url s = true -> s <> EmptyString -> isBlank s = false.
Proof.
  destruct s as [|c s]; [done|]. intros [Hc _]%andb_true_iff _.
  simpl. apply andb_false_iff. left.
  destruct c as [[] [] [] [] [] [] [] []]; try done.
Qed.

(** ** The constant-time comparison decides equality *)

Lemma xor_fold_zero (k u : string) (d : N) :
  xor_fold k u d = 0%N -> d = 0%N.
Proof.
  revert u d. induction k as [|c k IH]; intros u d; simpl; [done|].
  destruct u as [|e u]; intros H%IH; by apply N.lor_eq_0_iff in H as [? _].
Qed.

Lemma xor_fold_refl (k : string) : xor_fold k k 0 = 0%N.
Proof. induction k as [|c k IH]; simpl; [done|]. by rewrite N.lxor_nilpotent. Qed.

Lemma xor_fold_eq (k u : string) :
  String.length k = String.length u -> xor_fold k u 0 = 0%N -> k = u.
Proof.
  revert u. induction k as [|c k IH]; intros [|e u]; try done.
  simpl. intros [= Hlen] H.
  pose proof (xor_fold_zero _ _ _ H) as Hz.
  apply N.lxor_eq in Hz.
  assert (c = e) as ->.
  { rewrite <- (ascii_N_embedding c), <- (ascii_N_embedding e). by rewrite Hz. }
  f_equal. apply IH; [done|]. by rewrite N.lxor_nilpotent in H.
Qed.

Lemma safeStringCompare_refl (s : string) : safeStringCompare s s = true.
Proof.
  unfold safeStringCompare. by rewrite N.lxor_nilpotent, xor_fold_refl.
Qed.

Lemma safeStringCompare_eq (k u : string) :
  safeStringCompare k u = true <-> k = u.
Proof.
  split; [|intros ->; apply safeStringCompare_refl].
  unfold safeStringCompare. intros H%N.eqb_eq.
  pose proof (xor_fold_zero _ _ _ H) as Hlen.
  apply N.lxor_eq, Nat2N.inj in Hlen.
  rewrite Hlen, N.lxor_nilpotent in H. by apply xor_fold_eq.
Qed.

(** ** The Credential Hasher *)

Lemma parse_cost_digits (r : Z) :
  0 <= r <= 99 -> parse_cost (digit (r / 10)) (digit (r mod 10)) = Some r.
Proof.
  intros Hr. rewrite (Z.div_mod r 10) at 3 by lia.
  pose proof (Z.mod_pos_bound r 10 ltac:(lia)) as Hmod.
  assert (0 <= r / 10 <= 9) as Hdiv.
  { split; [apply Z.div_pos; lia|].
    apply Z.lt_succ_r. apply Z.div_lt_upper_bound; lia. }
  generalize dependent (r mod 10). generalize dependent (r / 10).
  intros q Hq m Hm.
  assert (q = 0 \/ q = 1 \/ q = 2 \/ q = 3 \/ q = 4 \/ q = 5 \/ q = 6 \/ q = 7
          \/ q = 8 \/ q = 9) as Hqs by lia.
  assert (m = 0 \/ m = 1 \/ m = 2 \/ m = 3 \/ m = 4 \/ m = 5 \/ m = 6 \/ m = 7
          \/ m = 8 \/ m = 9) as Hms by lia.
  clear Hq Hm.
  repeat (destruct Hqs as [->|Hqs]); repeat (destruct Hms as [->|Hms]);
    subst; reflexivity.
Qed.

Lemma render_length (ps : SaltParams) :
  String.length (render ps) = (7 + String.length (real_salt ps))%nat.
Proof. reflexivity. Qed.

(** Reading the parameters of a rendered prefix gives them back. *)
Lemma parse_render (ps : SaltParams) :
  is_revision (minor ps) = true ->
  4 <= rounds ps <= 31 ->
  validSalt (real_salt ps) ->
  parse_salt (render ps) = Resolved ps.
Proof.
  destruct ps as [m r s]. cbn [minor rounds real_salt]. intros Hm Hr [Hlen Hs].
  unfold parse_salt, render. cbn [minor rounds real_salt].
  rewrite Hm. cbn [negb]. rewrite parse_cost_digits by lia.
  destruct (Z.ltb_spec r 4); [lia|]. destruct (Z.ltb_spec 31 r); [lia|].
  cbn [orb]. by rewrite <- Hlen, substring_whole, Hs, Nat.eqb_refl.
Qed.

Lemma hash_length (ps : SaltParams) (d : string) :
  validSalt (real_salt ps) -> String.length d = 31%nat ->
  String.length (render ps +:+ d) = 60%nat.
Proof.
  intros [Hlen _] Hd. by rewrite length_app, render_length, Hlen, Hd.
Qed.

Lemma hash_prefix (ps : SaltParams) (d : string) :
  validSalt (real_salt ps) ->
  String.substring 0 29 (render ps +:+ d) = render ps.
Proof.
  intros [Hlen _].
  replace 29%nat with (String.length (render ps))
    by (by rewrite render_length, Hlen).
  apply substring_prefix.
Qed.

Section BcryptFacts.
Context `{!BcryptCore}.

Lemma bcrypt_hash_render (s : string) (ps : SaltParams) :
  is_revision (minor ps) = true ->
  4 <= rounds ps <= 31 ->
  validSalt (real_salt ps) ->
  bcrypt_hash s (render ps) = Resolved (render ps +:+ digest ps s).
Proof.
  intros Hm Hr Hs. unfold bcrypt_hash. by rewrite parse_render.
Qed.

Lemma hashPassword_resolved (random p : string) :
  validSalt random ->
  hashPassword random p
  = Resolved (render (mkSalt "a" 10 random) +:+ digest (mkSalt "a" 10 random) p).
Proof.
  intros Hs. unfold hashPassword, genSalt.
  cbn [bind Z.ltb Z.compare Pos.compare Pos.compare_cont].
  by apply bcrypt_hash_render.
Qed.

(** On a well-formed hash the comparison answers, and answers whether
    the re-derived hash is the stored one. *)
Lemma compare_wellFormed (p : string) (ps : SaltParams) (d : string) :
  is_revision (minor ps) = true ->
  4 <= rounds ps <= 31 ->
  validSalt (real_salt ps) ->
  String.length d = 31%nat ->
  comparePasswords p (render ps +:+ d)
  = Resolved (bool_decide (render ps +:+ digest ps p = render ps +:+ d)).
Proof.
  intros Hm Hr Hs Hd. unfold comparePasswords, bcrypt_compare.
  rewrite hash_length, hash_prefix by done. cbn [Nat.eqb negb].
  rewrite bcrypt_hash_render by done. cbn [bind]. f_equal.
  apply eq_true_iff_eq. by rewrite safeStringCompare_eq, bool_decide_eq_true.
Qed.

(** C3: for every plaintext [p] (non-empty or not) and every salt the
    generator can draw, [hashPassword] resolves to a hash [h] and
    [comparePasswords p h] resolves to [true]. *)
Theorem compare_hashPassword (p random : string) :
  validSalt random ->
  exists h, hashPassword random p = Resolved h
            /\ comparePasswords p h = Resolved true.
Proof.
  intros Hs. eexists. split; [by apply hashPassword_resolved|].
  rewrite compare_wellFormed; try done.
  - by rewrite bool_decide_eq_true_2.
  - apply bcrypt_raw_length.
Qed.

(** C6: two calls of [hashPassword] on the same plaintext, each with
    the fresh salt it drew, resolve to two different hashes. *)
Theorem hashPassword_fresh_salt (p random1 random2 : string) :
  validSalt random1 -> validSalt random2 -> random1 <> random2 ->
  exists h1 h2, hashPassword random1 p = Resolved h1
                /\ hashPassword random2 p = Resolved h2
                /\ h1 <> h2.
Proof.
  intros Hs1 Hs2 Hne. do 2 eexists.
  split; [by apply hashPassword_resolved|].
  split; [by apply hashPassword_resolved|].
  intros Heq. apply Hne.
  apply app_inj_length in Heq.
  - by injection Heq.
  - rewrite !render_length. cbn [real_salt].
    by destruct Hs1 as [-> _], Hs2 as [-> _].
Qed.

(** C7: [comparePasswords] resolves on every well-formed hash, so it
    throws only on a malformed one; and whenever the hash re-derived
    from the plaintext is not the stored hash it resolves to [false]. *)
Theorem comparePasswords_mismatch (p h : string) :
  (wellFormedHash h -> exists b, comparePasswords p h = Resolved b)
  /\ (forall e, comparePasswords p h = Thrown e -> ~ wellFormedHash h)
  /\ (forall h', bcrypt_hash p (String.substring 0 29 h) = Resolved h' ->
                 h' <> h -> comparePasswords p h = Resolved false).
Proof.
  assert (wellFormedHash h -> exists b, comparePasswords p h = Resolved b) as Hwf.
  { intros [ps d Hm Hr Hs Hd]. eexists. by apply compare_wellFormed. }
  split; [done|]. split.
  - intros e He Hh. destruct (Hwf Hh) as [b Hb]. congruence.
  - intros h' Hh' Hne. unfold comparePasswords, bcrypt_compare.
    destruct (negb _); [done|]. rewrite Hh'. cbn [bind]. f_equal.
    apply not_true_iff_false. by rewrite safeStringCompare_eq.
Qed.

End BcryptFacts.

(** ** The Token Issuer and the Token Verifier *)

Section TokenFacts.
Context `{!Jws}.

Lemma encode_lacks (sep : ascii) (o : obj) :
  base64url_char sep = false -> lacks sep (encodeSegment o) = true.
Proof. intros Hsep. apply base64url_lacks; [done|apply encode_base64url]. Qed.

Lemma hmac_lacks (sep : ascii) (alg key input : string) :
  base64url_char sep = false -> lacks sep (hmac alg key input) = true.
Proof. intros Hsep. apply base64url_lacks; [done|apply hmac_base64url]. Qed.

Lemma jws_sign_lacks_space (hdr payload : obj) (alg secret : string) :
  lacks " " (jws_sign hdr payload alg secret) = true.
Proof.
  unfold jws_sign, securedInput.
  rewrite lacks_app, lacks_app, !lacks_String.
  by rewrite !encode_lacks, hmac_lacks by done.
Qed.

(** A signed token splits into its three segments. *)
Lemma split_jws_sign (hdr payload : obj) (alg secret : string) :
  split "." (jws_sign hdr payload alg secret)
  = [encodeSegment hdr; encodeSegment payload;
     hmac alg secret (securedInput hdr payload)].
Proof.
  unfold jws_sign. unfold securedInput at 1.
  rewrite app_assoc_string, app_String.
  rewrite split_app by (by apply encode_lacks).
  rewrite split_app by (by apply encode_lacks).
  by rewrite split_lacks by (by apply hmac_lacks).
Qed.

Lemma jws_sign_not_empty (hdr payload : obj) (alg secret : string) :
  jws_sign hdr payload alg secret <> EmptyString.
Proof. apply app_not_empty. Qed.

Lemma jsonObject_header (alg : string) :
  jsonObject {[ "alg" := JStr alg; "typ" := JStr "JWT" ]}.
Proof.
  apply map_Forall_insert_2; [done|]. by apply map_Forall_singleton.
Qed.

Lemma jsonObject_stampedClaim (u : UserDoc) (issued : Z) :
  jsonObject (stampedClaim u issued).
Proof.
  unfold stampedClaim, identityClaim.
  repeat (apply map_Forall_insert_2; [done|]). apply map_Forall_empty.
Qed.

(** Verifying, under the signing secret, a token whose header names
    HS256: only the expiry is left to decide. *)
Lemma jwt_verify_jws_sign (payload : obj) (secret : string) (now : Z) :
  jsonObject payload ->
  secret <> EmptyString ->
  jwt_verify (jws_sign {[ "alg" := JStr "HS256"; "typ" := JStr "JWT" ]}
                payload "HS256" secret) secret now
  = match payload !! "exp" with
    | None => Resolved payload
    | Some (JNum exp) =>
        if exp <=? clockTimestamp now then Thrown TokenExpiredError
        else Resolved payload
    | Some _ => Thrown (JsonWebTokenError "invalid exp value")
    end.
Proof.
  intros Hjson Hs. unfold jwt_verify.
  rewrite decide_False by apply jws_sign_not_empty.
  rewrite split_jws_sign.
  rewrite !decodeSegment_encodeSegment by (done || apply jsonObject_header).
  rewrite base64url_not_blank by (apply hmac_base64url || apply hmac_nonempty).
  rewrite (bool_decide_eq_false_2 _ Hs). cbn [negb andb].
  rewrite lookup_insert_eq. unfold allowedAlgorithms. cbn [negb andb].
  rewrite bool_decide_eq_true_2 by set_solver. cbn [negb].
  unfold jws_verify. cbn [String.eqb Ascii.eqb Bool.eqb].
  unfold securedInput. rewrite String.eqb_refl. by cbn [negb].
Qed.

Lemma generateToken_resolved (u : UserDoc) (secret : string) (issued : Z) :
  secret <> EmptyString ->
  generateToken u secret issued = Resolved (issuedToken u secret issued).
Proof.
  intros Hs. unfold generateToken, jwt_sign. by rewrite decide_False.
Qed.

Lemma generateToken_inv (u : UserDoc) (secret : string) (issued : Z)
    (token : string) :
  generateToken u secret issued = Resolved token ->
  secret <> EmptyString /\ token = issuedToken u secret issued.
Proof.
  unfold generateToken, jwt_sign. case_decide; [done|].
  intros [= <-]. done.
Qed.

Lemma verify_issuedToken (u : UserDoc) (secret : string) (issued now : Z) :
  secret <> EmptyString ->
  jwt_verify (issuedToken u secret issued) secret now
  = if clockTimestamp issued + 3600 <=? clockTimestamp now
    then Thrown TokenExpiredError
    else Resolved (stampedClaim u issued).
Proof.
  intros Hs. unfold issuedToken.
  rewrite jwt_verify_jws_sign by (done || apply jsonObject_stampedClaim).
  unfold stampedClaim at 1. by rewrite lookup_insert_eq.
Qed.

Lemma stampedClaim_id (u : UserDoc) (issued : Z) :
  stampedClaim u issued !! "id" = Some (JStr (_id u)).
Proof. unfold stampedClaim, identityClaim. by simplify_map_eq. Qed.

Lemma stampedClaim_email (u : UserDoc) (issued : Z) :
  stampedClaim u issued !! "email" = Some (JStr (email u)).
Proof. unfold stampedClaim, identityClaim. by simplify_map_eq. Qed.

(** The stamped claim has an [exp] that the claim has not. *)
Lemma stampedClaim_not_claim (u : UserDoc) (issued : Z) :
  stampedClaim u issued <> identityClaim u.
Proof.
  intros Heq.
  assert (stampedClaim u issued !! "exp" = identityClaim u !! "exp") as Hexp
    by (by rewrite Heq).
  unfold stampedClaim, identityClaim in Hexp. by simplify_map_eq.
Qed.

(** ** The Access Guard *)

Lemma bearerToken_Bearer (t : string) :
  lacks " " t = true -> bearerToken ("Bearer " +:+ t) = t.
Proof.
  intros Ht. unfold bearerToken.
  change ("Bearer " +:+ t) with ("Bearer" +:+ String " " t).
  rewrite split_app by done. by rewrite split_lacks.
Qed.

Lemma bearerToken_issued (u : UserDoc) (secret : string) (issued : Z) :
  bearerToken ("Bearer " +:+ issuedToken u secret issued)
  = issuedToken u secret issued.
Proof. apply bearerToken_Bearer, jws_sign_lacks_space. Qed.

Lemma authenticateUser_denied (secret : string) (now : Z) (req : Request) :
  (header req "Authorization" = None
   \/ exists h, header req "Authorization" = Some h
                /\ startsWith "Bearer " h = false) ->
  authenticateUser secret now req = Respond accessDenied.
Proof.
  unfold authenticateUser. intros [->|(h & -> & ->)]; done.
Qed.

Lemma authenticateUser_verified (secret : string) (now : Z) (req : Request)
    (h : string) :
  header req "Authorization" = Some h ->
  startsWith "Bearer " h = true ->
  authenticateUser secret now req
  = match jwt_verify (bearerToken h) secret now with
    | Resolved decoded =>
        Next (mkRequest (headers req) (req_body req) (Some decoded))
    | Thrown e => Respond (invalidToken e)
    end.
Proof. unfold authenticateUser. by intros -> ->. Qed.

Lemma authenticateUser_status (secret : string) (now : Z) (req : Request)
    (r : Response) :
  authenticateUser secret now req = Respond r -> status r = 401.
Proof.
  unfold authenticateUser.
  destruct (header req "Authorization") as [h|]; [|by intros [= <-]].
  destruct (negb _); [by intros [= <-]|].
  destruct (jwt_verify _ _ _); [done|by intros [= <-]].
Qed.

Lemma startsWith_Bearer (t : string) : startsWith "Bearer " ("Bearer " +:+ t) = true.
Proof. unfold startsWith. simpl. by destruct t. Qed.

End TokenFacts.

(** ** The controllers *)

Lemma find_In {A : Type} (f : A -> bool) (l : list A) (x : A) :
  In x l -> f x = true -> exists y, List.find f l = Some y.
Proof.
  intros Hin Hf. destruct (List.find f l) as [y|] eqn:Hfind; [by exists y|].
  by rewrite (List.find_none _ _ Hfind x Hin) in Hf.
Qed.

Lemma find_absent {A : Type} (f : A -> bool) (l : list A) :
  (forall x, In x l -> f x = false) -> List.find f l = None.
Proof.
  intros Hall. destruct (List.find f l) as [y|] eqn:Hfind; [|done].
  apply List.find_some in Hfind as [Hin Hf]. by rewrite (Hall y Hin) in Hf.
Qed.

(** What the profile response holds: every field but the password. *)
Lemma profile_fields (d : UserDoc) :
  toJSON_transform (select_minus "password" (toObject d))
  = {[ "_id" := JStr (_id d); "name" := JStr (name d); "email" := JStr (email d);
       "createdAt" := JDate (createdAt d); "updatedAt" := JDate (updatedAt d);
       "__v" := JNum (__v d) ]}.
Proof.
  unfold toJSON_transform, select_minus, toObject.
  apply map_eq. intros k.
  destruct (decide (k = "password")) as [->|]; [by simplify_map_eq|].
  rewrite !lookup_delete_ne by done.
  destruct (decide (k = "_id")) as [->|]; [by simplify_map_eq|].
  destruct (decide (k = "name")) as [->|]; [by simplify_map_eq|].
  destruct (decide (k = "email")) as [->|]; [by simplify_map_eq|].
  destruct (decide (k = "createdAt")) as [->|]; [by simplify_map_eq|].
  destruct (decide (k = "updatedAt")) as [->|]; [by simplify_map_eq|].
  destruct (decide (k = "__v")) as [->|]; by simplify_map_eq.
Qed.

Section ControllerFacts.
Context `{!Jws, !BcryptCore, !UserSchema}.

Lemma registerUser_existing (oid : string) (now : Z) (random : string)
    (req : Request) (db : collection) (u : UserDoc) :
  In u db -> email u = toLowerCase (body_email (req_body req)) ->
  registerUser oid now random req db
  = (mkResponse 400 (message_body "User already exists"), db).
Proof.
  intros Hin He. unfold registerUser, User_findOne.
  destruct (find_In (fun d => String.eqb (email d)
                                 (toLowerCase (body_email (req_body req)))) db u)
    as [y ->]; [done|by apply String.eqb_eq|done].
Qed.

Lemma registerUser_created (oid : string) (now : Z) (random : string)
    (req : Request) (db db' : collection) (hashed : string) :
  (forall u, In u db -> email u <> toLowerCase (body_email (req_body req))) ->
  hashPassword random (body_password (req_body req)) = Resolved hashed ->
  User_save oid now (body_name (req_body req)) (body_email (req_body req))
            hashed db = Resolved db' ->
  registerUser oid now random req db
  = (mkResponse 201 (message_body "User registered successfully"), db').
Proof.
  intros Hnew Hhash Hsave. unfold registerUser, User_findOne.
  rewrite find_absent by (intros u Hu; apply String.eqb_neq; auto).
  cbn [bind]. rewrite Hhash. cbn [bind]. by rewrite Hsave.
Qed.

Lemma loginUser_unknown (secret : string) (now : Z) (req : Request)
    (db : collection) :
  (forall u, In u db -> email u <> toLowerCase (body_email (req_body req))) ->
  loginUser secret now req db
  = mkResponse 400 (message_body "Invalid credentials").
Proof.
  intros Hnew. unfold loginUser, User_findOne.
  by rewrite find_absent by (intros u Hu; apply String.eqb_neq; auto).
Qed.

Lemma loginUser_mismatch (secret : string) (now : Z) (req : Request)
    (db : collection) (u : UserDoc) :
  User_findOne (body_email (req_body req)) db = Resolved (Some u) ->
  comparePasswords (body_password (req_body req)) (password u) = Resolved false ->
  loginUser secret now req db
  = mkResponse 400 (message_body "Invalid credentials").
Proof.
  intros Hu Hcmp. unfold loginUser. rewrite Hu. cbn [bind]. by rewrite Hcmp.
Qed.

Lemma getProfile_found (req : Request) (db : collection) (claim : obj)
    (d : UserDoc) :
  user req = Some claim ->
  User_findById (claim !! "id") db = Resolved (Some d) ->
  getProfile req db
  = mkResponse 200
      (Json (toJSON_transform (select_minus "password" (toObject d)))).
Proof.
  intros Hc Hd. unfold getProfile. rewrite Hc. cbn [bind]. by rewrite Hd.
Qed.

Lemma getProfile_not_found (req : Request) (db : collection) (claim : obj) :
  user req = Some claim ->
  User_findById (claim !! "id") db = Resolved None ->
  getProfile req db = mkResponse 404 (message_body "User not found").
Proof.
  intros Hc Hd. unfold getProfile. rewrite Hc. cbn [bind]. by rewrite Hd.
Qed.

(** * The claims *)

(** C1 (as amended): for every user, every non-empty secret and every
    clock reading, in whole seconds, below [iat + 3600], the token that
    [generateToken] issues verifies under the same secret, and the
    decoded payload is the Identity Claim with [iat] and [exp] added:
    its [id] and [email] are those of the claim. *)
Theorem verify_generateToken (u : UserDoc) (secret : string) (issued now : Z) :
  secret <> EmptyString ->
  clockTimestamp now < clockTimestamp issued + 3600 ->
  exists token decoded,
    generateToken u secret issued = Resolved token
    /\ jwt_verify token secret now = Resolved decoded
    /\ decoded = <["exp" := JNum (clockTimestamp issued + 3600)]>
                   (<["iat" := JNum (clockTimestamp issued)]> (identityClaim u))
    /\ decoded !! "id" = Some (JStr (_id u))
    /\ decoded !! "email" = Some (JStr (email u)).
Proof.
  intros Hs Hnow. exists (issuedToken u secret issued), (stampedClaim u issued).
  split; [by apply generateToken_resolved|].
  split; [|by auto using stampedClaim_id, stampedClaim_email].
  rewrite verify_issuedToken by done.
  by destruct (Z.leb_spec (clockTimestamp issued + 3600) (clockTimestamp now)); [lia|].
Qed.

(** C2: the Access Guard answers 401 Access Denied when the
    Authorization header is absent or does not start with [Bearer ];
    otherwise it hands the token after the prefix to the verifier,
    answers 401 Invalid Token on any failure of the verifier, and on
    success calls the next handler with the decoded payload attached as
    [req.user]. A token of [generateToken] presented in time is among
    the accepted ones. *)
Theorem authenticateUser_guard (secret : string) (now : Z) (req : Request) :
  (header req "Authorization" = None ->
     authenticateUser secret now req = Respond accessDenied)
  /\ (forall h, header req "Authorization" = Some h ->
        startsWith "Bearer " h = false ->
        authenticateUser secret now req = Respond accessDenied)
  /\ (forall h e, header req "Authorization" = Some h ->
        startsWith "Bearer " h = true ->
        jwt_verify (bearerToken h) secret now = Thrown e ->
        authenticateUser secret now req = Respond (invalidToken e))
  /\ (forall h decoded, header req "Authorization" = Some h ->
        startsWith "Bearer " h = true ->
        jwt_verify (bearerToken h) secret now = Resolved decoded ->
        authenticateUser secret now req
        = Next (mkRequest (headers req) (req_body req) (Some decoded)))
  /\ (forall t, lacks " " t = true -> bearerToken ("Bearer " +:+ t) = t)
  /\ (forall u issued token,
        generateToken u secret issued = Resolved token ->
        header req "Authorization" = Some ("Bearer " +:+ token) ->
        clockTimestamp now < clockTimestamp issued + 3600 ->
        exists decoded,
          authenticateUser secret now req
          = Next (mkRequest (headers req) (req_body req) (Some decoded))
          /\ decoded !! "id" = Some (JStr (_id u))
          /\ decoded !! "email" = Some (JStr (email u)))
  /\ accessDenied
     = mkResponse 401 (Json {[ "message" := JStr "Access Denied";
                               "error" := JStr "No token provided" ]})
  /\ (forall e, invalidToken e
                = mkResponse 401 (Json {[ "message" := JStr "Invalid Token";
                                          "error" := JStr (message e) ]})).
Proof.
  split; [intros Hh; apply authenticateUser_denied; by left|].
  split; [intros h Hh Hp; apply authenticateUser_denied; right; by exists h|].
  split; [intros h e Hh Hp He; by rewrite (authenticateUser_verified _ _ _ h), He|].
  split; [intros h d Hh Hp Hd; by rewrite (authenticateUser_verified _ _ _ h), Hd|].
  split; [apply bearerToken_Bearer|].
  split; [|done].
  intros u issued token [Hs ->]%generateToken_inv Hh Hnow.
  exists (stampedClaim u issued).
  rewrite (authenticateUser_verified _ _ _ _ Hh (startsWith_Bearer _)).
  rewrite bearerToken_issued, verify_issuedToken by done.
  destruct (Z.leb_spec (clockTimestamp issued + 3600) (clockTimestamp now)); [lia|].
  by auto using stampedClaim_id, stampedClaim_email.
Qed.

(** C4 (as amended): every failure of the verifier becomes one kind of
    rejection, status 401 with message Invalid Token, whose [error]
    field carries the verifier's own message for that failure. *)
Theorem invalidToken_rejection (secret : string) (now : Z) (req : Request)
    (h : string) (e : JsError) :
  header req "Authorization" = Some h ->
  startsWith "Bearer " h = true ->
  jwt_verify (bearerToken h) secret now = Thrown e ->
  exists o,
    authenticateUser secret now req = Respond (mkResponse 401 (Json o))
    /\ o !! "message" = Some (JStr "Invalid Token")
    /\ o !! "error" = Some (JStr (message e))
    /\ dom o = {[ "message"; "error" ]}.
Proof.
  intros Hh Hp He. eexists.
  split; [by rewrite (authenticateUser_verified _ _ _ h), He|].
  split; [by simplify_map_eq|]. split; [by simplify_map_eq|].
  rewrite dom_insert_L, dom_singleton_L. set_solver.
Qed.

(** C5: for a request whose name and email are strings of ASCII
    characters, with the email taken as the schema stores and looks it
    up, in lower case: registration that goes through answers 201;
    registration with an email that is already stored answers 400; login
    with an unknown email, or with a password that [comparePasswords]
    rejects against the hash of the stored user, answers 400. And the
    Access Guard answers 401 whenever it rejects, which it does on a
    missing, an invalid and an expired token. *)
Theorem http_outcomes (secret : string) (now : Z) (req : Request)
    (db : collection) :
  (forall oid random hashed db',
     isAscii (body_name (req_body req)) = true ->
     isAscii (body_email (req_body req)) = true ->
     (forall u, In u db -> email u <> toLowerCase (body_email (req_body req))) ->
     hashPassword random (body_password (req_body req)) = Resolved hashed ->
     User_save oid now (body_name (req_body req)) (body_email (req_body req))
               hashed db = Resolved db' ->
     registerUser oid now random req db
     = (mkResponse 201 (message_body "User registered successfully"), db'))
  /\ (forall oid random u,
        isAscii (body_email (req_body req)) = true ->
        In u db -> email u = toLowerCase (body_email (req_body req)) ->
        registerUser oid now random req db
        = (mkResponse 400 (message_body "User already exists"), db))
  /\ (isAscii (body_email (req_body req)) = true ->
      (forall u, In u db -> email u <> toLowerCase (body_email (req_body req))) ->
      loginUser secret now req db
      = mkResponse 400 (message_body "Invalid credentials"))
  /\ (forall u,
        isAscii (body_email (req_body req)) = true ->
        User_findOne (body_email (req_body req)) db = Resolved (Some u) ->
        comparePasswords (body_password (req_body req)) (password u)
        = Resolved false ->
        loginUser secret now req db
        = mkResponse 400 (message_body "Invalid credentials"))
  /\ (forall r, authenticateUser secret now req = Respond r -> status r = 401)
  /\ (header req "Authorization" = None ->
      exists r, authenticateUser secret now req = Respond r)
  /\ (forall h e, header req "Authorization" = Some h ->
        startsWith "Bearer " h = true ->
        jwt_verify (bearerToken h) secret now = Thrown e ->
        exists r, authenticateUser secret now req = Respond r)
  /\ (forall u issued token,
        generateToken u secret issued = Resolved token ->
        header req "Authorization" = Some ("Bearer " +:+ token) ->
        clockTimestamp issued + 3600 <= clockTimestamp now ->
        exists r, authenticateUser secret now req = Respond r).
Proof.
  split; [intros * _ _; apply registerUser_created|].
  split; [intros * _; apply registerUser_existing|].
  split; [intros _; apply loginUser_unknown|].
  split; [intros * _; apply loginUser_mismatch|].
  split; [apply authenticateUser_status|].
  split; [intros Hh; eexists; apply authenticateUser_denied; by left|].
  split.
  - intros h e Hh Hp He. eexists.
    by rewrite (authenticateUser_verified _ _ _ h), He.
  - intros u issued token [Hs ->]%generateToken_inv Hh Hnow. eexists.
    rewrite (authenticateUser_verified _ _ _ _ Hh (startsWith_Bearer _)).
    rewrite bearerToken_issued, verify_issuedToken by done.
    by destruct (Z.leb_spec (clockTimestamp issued + 3600) (clockTimestamp now));
      [|lia].
Qed.

(** C8 (as amended): a successful profile retrieval answers 200 with
    every stored field of the user except the password: the [_id],
    [name] and [email] together with the [createdAt] and [updatedAt]
    timestamps and the version key; the stored hash is never in it. *)
Theorem getProfile_response (req : Request) (db : collection) (claim : obj)
    (d : UserDoc) :
  user req = Some claim ->
  User_findById (claim !! "id") db = Resolved (Some d) ->
  exists o,
    getProfile req db = mkResponse 200 (Json o)
    /\ o !! "password" = None
    /\ o = delete "password" (toObject d)
    /\ o !! "_id" = Some (JStr (_id d))
    /\ o !! "name" = Some (JStr (name d))
    /\ o !! "email" = Some (JStr (email d))
    /\ o !! "createdAt" = Some (JDate (createdAt d))
    /\ o !! "updatedAt" = Some (JDate (updatedAt d))
    /\ dom o = {[ "_id"; "name"; "email"; "createdAt"; "updatedAt"; "__v" ]}.
Proof.
  intros Hc Hd. eexists. split; [by apply (getProfile_found _ _ claim)|].
  split; [apply lookup_delete_eq|].
  split; [unfold toJSON_transform, select_minus; by rewrite delete_delete_eq|].
  rewrite profile_fields. repeat (split; [by simplify_map_eq|]).
  rewrite !dom_insert_L, dom_singleton_L. set_solver.
Qed.

(** C10: a request whose bearer token verifies, while its [id] finds no
    stored user, passes the Access Guard and is answered 404 User not
    found by the controller. *)
Theorem profile_of_missing_user (secret : string) (now : Z) (req : Request)
    (db : collection) (h : string) (decoded : obj) :
  header req "Authorization" = Some h ->
  startsWith "Bearer " h = true ->
  jwt_verify (bearerToken h) secret now = Resolved decoded ->
  User_findById (decoded !! "id") db = Resolved None ->
  (exists req', authenticateUser secret now req = Next req')
  /\ profileRoute secret now req db
     = mkResponse 404 (message_body "User not found")
  /\ status (profileRoute secret now req db) <> 401.
Proof.
  intros Hh Hp Hd Hnone.
  assert (authenticateUser secret now req
          = Next (mkRequest (headers req) (req_body req) (Some decoded))) as Hauth
    by (by rewrite (authenticateUser_verified _ _ _ h), Hd).
  assert (profileRoute secret now req db
          = mkResponse 404 (message_body "User not found")) as Hroute.
  { unfold profileRoute. rewrite Hauth.
    by apply (getProfile_not_found _ _ decoded). }
  split; [by eexists|]. split; [done|]. by rewrite Hroute.
Qed.

End ControllerFacts.

(** * Further properties of the controllers and the guard *)

(** What [parse_salt] accepts is well formed. *)
Lemma parse_salt_inv (salt : string) (ps : SaltParams) :
  parse_salt salt = Resolved ps ->
  is_revision (minor ps) = true
  /\ 4 <= rounds ps <= 31
  /\ validSalt (real_salt ps).
Proof.
  unfold parse_salt. intros Hparse.
  repeat case_match; try discriminate.
  injection Hparse as <-. cbn [minor rounds real_salt].
  repeat match goal with
         | H : negb _ = false |- _ => apply negb_false_iff in H
         | H : _ || _ = false |- _ => apply orb_false_iff in H as [? ?]
         | H : _ && _ = true |- _ => apply andb_true_iff in H as [? ?]
         | H : (_ <? _) = false |- _ => apply Z.ltb_ge in H
         | H : (_ =? _)%nat = true |- _ => apply Nat.eqb_eq in H
         end.
  unfold validSalt. repeat split; (done || lia).
Qed.

Lemma find_id_unique (db : collection) (u : UserDoc) :
  NoDup (_id <$> db) -> In u db ->
  List.find (fun d => String.eqb (_id d) (_id u)) db = Some u.
Proof.
  induction db as [|v db IH]; [done|]. cbn [fmap list_fmap].
  intros [Hv Hdb]%NoDup_cons [->|Hin]; simpl.
  - by rewrite String.eqb_refl.
  - destruct (String.eqb_spec (_id v) (_id u)) as [Heq|_]; [|by apply IH].
    destruct Hv. rewrite Heq. apply list_elem_of_fmap. exists u.
    split; [done|]. by apply list_elem_of_In.
Qed.

(** [split(" ")[1]] is the text between the first two spaces. *)
Lemma bearerToken_second_word (t rest : string) :
  lacks " " t = true ->
  bearerToken ("Bearer " +:+ t +:+ String " " rest) = t.
Proof.
  intros Ht. unfold bearerToken.
  change ("Bearer " +:+ t +:+ String " " rest)
    with ("Bearer" +:+ String " " (t +:+ String " " rest)).
  by rewrite !split_app by done.
Qed.

Section ControllerProperties.
Context `{!Jws, !BcryptCore, !UserSchema}.

(** Whatever [bcrypt.hash] resolves to verifies against its plaintext. *)
Lemma bcrypt_hash_verifies (s salt h : string) :
  bcrypt_hash s salt = Resolved h -> comparePasswords s h = Resolved true.
Proof.
  unfold bcrypt_hash. destruct (parse_salt salt) as [ps|] eqn:Hps; [|done].
  cbn [bind]. intros [= <-].
  destruct (parse_salt_inv _ _ Hps) as (Hm & Hr & Hs).
  rewrite compare_wellFormed by (done || apply bcrypt_raw_length).
  by rewrite bool_decide_eq_true_2.
Qed.

Lemma hashPassword_verifies (random p h : string) :
  hashPassword random p = Resolved h -> comparePasswords p h = Resolved true.
Proof. unfold hashPassword, genSalt. cbn [bind]. apply bcrypt_hash_verifies. Qed.


(** [findOne] reads the collection with [List.find], looking for the
    lower-cased email. *)
Lemma findOne_app_new (e : string) (db : collection) (d : UserDoc) :
  (forall u, In u db -> email u <> toLowerCase e) -> email d = toLowerCase e ->
  User_findOne e (db ++ [d]) = Resolved (Some d).
Proof.
  intros Hnew He. unfold User_findOne. f_equal.
  induction db as [|u db IH]; simpl.
  - by rewrite He, String.eqb_refl.
  - destruct (String.eqb_spec (email u) (toLowerCase e)) as [Heq|_].
    + destruct (Hnew u); [by left|done].
    + apply IH. intros v Hv. apply Hnew. by right.
Qed.

Lemma findOne_inv (e : string) (db : collection) (u : UserDoc) :
  User_findOne e db = Resolved (Some u) -> In u db /\ email u = toLowerCase e.
Proof.
  unfold User_findOne. intros [= Hfind].
  by apply List.find_some in Hfind as [Hin Heq%String.eqb_eq].
Qed.

Lemma existsb_email_false (e : string) (db : collection) :
  (forall u, In u db -> email u <> e) ->
  existsb (fun d' => String.eqb (email d') e) db = false.
Proof.
  intros Hnew. apply not_true_iff_false. intros (u & Hin & Heq)%existsb_exists.
  apply String.eqb_eq in Heq. by apply (Hnew u).
Qed.

(** What [registerUser] does to the collection, for a name and an
    email of ASCII characters: it answers 201 only when no stored user
    has the lower-cased email, and then appends exactly one document,
    holding the trimmed name and the lower-cased email of the request,
    the hash of the password and the time of the call; on 400 (the
    lower-cased email is stored) and on 500 the collection is left as it
    was. *)
Theorem registerUser_effect (oid : string) (now : Z) (random : string)
    (req : Request) (db db' : collection) (r : Response) :
  isAscii (body_name (req_body req)) = true ->
  isAscii (body_email (req_body req)) = true ->
  registerUser oid now random req db = (r, db') ->
  (r = mkResponse 201 (message_body "User registered successfully")
   /\ (forall u, In u db -> email u <> toLowerCase (body_email (req_body req)))
   /\ exists h,
        hashPassword random (body_password (req_body req)) = Resolved h
        /\ db' = db ++ [mkUser oid (trim (body_name (req_body req)))
                          (toLowerCase (body_email (req_body req))) h now now 0])
  \/ (r = mkResponse 400 (message_body "User already exists")
      /\ db' = db
      /\ exists u, In u db /\ email u = toLowerCase (body_email (req_body req)))
  \/ (r = mkResponse 500 (error_body "Error registering user") /\ db' = db).
Proof.
  intros _ _. unfold registerUser, User_findOne, User_save. cbn [bind].
  destruct (List.find _ db) as [u|] eqn:Hfind.
  - intros [= <- <-]. right; left. repeat split.
    apply List.find_some in Hfind as [Hin Heq]. exists u.
    by apply String.eqb_eq in Heq.
  - assert (forall u, In u db
                      -> email u <> toLowerCase (body_email (req_body req))) as Hnew.
    { intros u Hin. apply String.eqb_neq. by apply (List.find_none _ _ Hfind). }
    destruct (hashPassword random _) as [h|] eqn:Hhash; cbn [bind];
      [|intros [= <- <-]; by right; right].
    destruct (negb (schemaValid _)); cbn [bind];
      [intros [= <- <-]; by right; right|].
    cbn [email]. rewrite existsb_email_false by done. cbn [bind].
    intros [= <- <-]. left. repeat split; [done|]. by exists h.
Qed.

(** [registerUser] keeps emails unique: from a collection without
    two users of one email it never makes one that has two. *)
Theorem registerUser_unique_emails (oid : string) (now : Z) (random : string)
    (req : Request) (db : collection) :
  NoDup (email <$> db) ->
  NoDup (email <$> (registerUser oid now random req db).2).
Proof.
  intros Hdb. unfold registerUser, User_findOne, User_save. cbn [bind].
  destruct (List.find _ db) as [u|] eqn:Hfind; [done|].
  destruct (hashPassword random _) as [h|]; cbn [bind]; [|done].
  destruct (negb (schemaValid _)); cbn [bind]; [done|].
  destruct (existsb _ db); cbn [bind]; [done|]. cbn [snd].
  rewrite fmap_app. apply NoDup_app. split; [done|]. split; [|apply NoDup_singleton].
  intros e He Hk. cbn in Hk. apply list_elem_of_singleton in Hk as ->.
  apply list_elem_of_fmap in He as (u & Heq & Hin%list_elem_of_In).
  pose proof (List.find_none _ _ Hfind u Hin) as Hne.
  apply String.eqb_neq in Hne. congruence.
Qed.

(** Registration followed by login, for a name and an email of ASCII
    characters: after a registration answered 201, a login with the
    same email and password as sent, on the resulting collection and
    under any non-empty secret, answers 200 with the id of the new
    user, the name as stored, trimmed, the email as stored, in lower
    case, and a token that verifies to the claim of that user. *)
Theorem register_then_login (oid : string) (now now' : Z) (random secret : string)
    (req : Request) (db db' : collection) :
  isAscii (body_name (req_body req)) = true ->
  isAscii (body_email (req_body req)) = true ->
  registerUser oid now random req db
  = (mkResponse 201 (message_body "User registered successfully"), db') ->
  secret <> EmptyString ->
  exists token,
    loginUser secret now' req db'
    = mkResponse 200
        (LoginJson token
           {[ "id" := JStr oid;
              "name" := JStr (trim (body_name (req_body req)));
              "email" := JStr (toLowerCase (body_email (req_body req))) ]})
    /\ jwt_verify token secret now'
       = Resolved (<["exp" := JNum (clockTimestamp now' + 3600)]>
                     (<["iat" := JNum (clockTimestamp now')]>
                        {[ "id" := JStr oid;
                           "email" := JStr (toLowerCase
                                              (body_email (req_body req))) ]})).
Proof.
  intros _ _ Hreg Hs. revert Hreg.
  unfold registerUser, User_findOne, User_save. cbn [bind].
  destruct (List.find _ db) as [u|] eqn:Hfind; [done|].
  destruct (hashPassword random _) as [h|] eqn:Hhash; cbn [bind]; [|done].
  destruct (negb (schemaValid _)); cbn [bind]; [done|].
  destruct (existsb _ db); cbn [bind]; [done|]. intros [= <-].
  set (d := mkUser oid _ _ h now now 0).
  exists (issuedToken d secret now'). split.
  - unfold loginUser.
    rewrite (findOne_app_new _ _ d); [|intros u Hin|done].
    + cbn [bind password d]. rewrite (hashPassword_verifies _ _ _ Hhash).
      cbn [bind negb]. by rewrite generateToken_resolved.
    + apply String.eqb_neq. by apply (List.find_none _ _ Hfind).
  - rewrite verify_issuedToken by done.
    by destruct (Z.leb_spec (clockTimestamp now' + 3600) (clockTimestamp now')); [lia|].
Qed.

(** Login with an email of ASCII characters answers 200 exactly when
    [findOne] finds a user, the first one stored under the lower-cased
    email, the password compares true against the stored hash and the
    signing secret is not empty; the answer then holds the token of
    [generateToken] for that user and the user's id, name and email as
    stored. *)
Theorem loginUser_success (secret : string) (now : Z) (req : Request)
    (db : collection) :
  isAscii (body_email (req_body req)) = true ->
  (status (loginUser secret now req db) = 200
   <-> exists u,
         User_findOne (body_email (req_body req)) db = Resolved (Some u)
         /\ comparePasswords (body_password (req_body req)) (password u)
            = Resolved true
         /\ secret <> EmptyString)
  /\ (forall b, loginUser secret now req db = mkResponse 200 b ->
        exists u token,
          In u db /\ email u = toLowerCase (body_email (req_body req))
          /\ generateToken u secret now = Resolved token
          /\ b = LoginJson token
                   {[ "id" := JStr (_id u); "name" := JStr (name u);
                      "email" := JStr (email u) ]}).
Proof.
  intros _. unfold loginUser.
  destruct (User_findOne _ db) as [[u|]|] eqn:Hfind; cbn [bind].
  2,3: split; [split; [done|by intros (u & ? & _)]|done].
  destruct (comparePasswords _ (password u)) as [[]|] eqn:Hcmp; cbn [bind negb].
  2,3: split; [split; [done|intros (v & [= <-] & ? & _); congruence]|done].
  destruct (generateToken u secret now) as [token|] eqn:Htoken; cbn [bind].
  - split.
    + split; [|done]. intros _. exists u.
      by apply generateToken_inv in Htoken as [Hs _].
    + intros b [= <-]. exists u, token.
      by apply findOne_inv in Hfind as [Hin Heq].
  - split; [split; [done|]|done].
    intros (v & [= <-] & _ & Hs).
    by rewrite generateToken_resolved in Htoken.
Qed.

(** Login followed by the profile route: the token of a successful
    login with an email of ASCII characters, presented as a bearer
    token before it expires, retrieves the profile of the very user who
    logged in, the one stored under the lower-cased email: the stored
    record without its password. Ids in the collection are unique and
    cast to themselves. *)
Theorem login_then_profile (secret : string) (now now' : Z)
    (req req' : Request) (db : collection) (token : string) (usr : obj) :
  isAscii (body_email (req_body req)) = true ->
  loginUser secret now req db = mkResponse 200 (LoginJson token usr) ->
  header req' "Authorization" = Some ("Bearer " +:+ token) ->
  clockTimestamp now' < clockTimestamp now + 3600 ->
  NoDup (_id <$> db) ->
  (forall u, In u db -> castObjectId (JStr (_id u)) = Some (_id u)) ->
  exists u,
    In u db /\ email u = toLowerCase (body_email (req_body req))
    /\ usr !! "id" = Some (JStr (_id u))
    /\ profileRoute secret now' req' db
       = mkResponse 200 (Json (delete "password" (toObject u))).
Proof.
  intros _ Hlogin Hh Hnow Hids Hcast. revert Hlogin. unfold loginUser.
  destruct (User_findOne _ db) as [[u|]|] eqn:Hfind; cbn [bind]; [|done..].
  destruct (comparePasswords _ (password u)) as [[]|]; cbn [bind negb]; [|done..].
  destruct (generateToken u secret now) as [t|] eqn:Htoken; cbn [bind]; [|done].
  intros [= <- <-]. apply generateToken_inv in Htoken as [Hs ->].
  apply findOne_inv in Hfind as [Hin Heq].
  exists u. split; [done|]. split; [done|]. split; [by simplify_map_eq|].
  unfold profileRoute.
  rewrite (authenticateUser_verified _ _ _ _ Hh (startsWith_Bearer _)).
  rewrite bearerToken_issued, verify_issuedToken by done.
  destruct (Z.leb_spec (clockTimestamp now + 3600) (clockTimestamp now')); [lia|].
  unfold getProfile. cbn [user bind]. rewrite stampedClaim_id.
  unfold User_findById. rewrite (Hcast u Hin), find_id_unique by done.
  cbn [bind]. unfold toJSON_transform, select_minus. by rewrite delete_delete_eq.
Qed.

(** The profile route is protected: it answers 200 only when the
    Authorization header carries a bearer token that the verifier
    accepts and the id of its claim is the id of a stored user, whose
    record without the password is the answer; and it answers nothing
    but 200, 401, 404 and 500. *)
Theorem profileRoute_protected (secret : string) (now : Z) (req : Request)
    (db : collection) :
  (status (profileRoute secret now req db) = 200 ->
   exists h decoded v d,
     header req "Authorization" = Some h
     /\ startsWith "Bearer " h = true
     /\ jwt_verify (bearerToken h) secret now = Resolved decoded
     /\ decoded !! "id" = Some v
     /\ castObjectId v = Some (_id d)
     /\ In d db
     /\ profileRoute secret now req db
        = mkResponse 200 (Json (delete "password" (toObject d))))
  /\ (status (profileRoute secret now req db) = 200
      \/ status (profileRoute secret now req db) = 401
      \/ status (profileRoute secret now req db) = 404
      \/ status (profileRoute secret now req db) = 500).
Proof.
  unfold profileRoute, authenticateUser.
  destruct (header req "Authorization") as [h|] eqn:Hh; [|split; [done|auto]].
  destruct (startsWith "Bearer " h) eqn:Hp; cbn [negb]; [|split; [done|auto]].
  destruct (jwt_verify _ secret now) as [decoded|e] eqn:Hv; [|split; [done|auto]].
  unfold getProfile, User_findById. cbn [user bind].
  destruct (decoded !! "id") as [v|] eqn:Hid; cbn [bind]; [|split; [done|auto]].
  destruct (castObjectId v) as [oid|] eqn:Hcast; cbn [bind]; [|split; [done|auto]].
  destruct (List.find _ db) as [d|] eqn:Hfind; cbn [bind]; [|split; [done|auto]].
  split; [|auto]. intros _.
  apply List.find_some in Hfind as [Hin Heq%String.eqb_eq]. subst oid.
  exists h, decoded, v, d. repeat (split; [done|]).
  unfold toJSON_transform, select_minus. by rewrite delete_delete_eq.
Qed.

(** No controller ever puts a [password] property into a response,
    whatever the request and the collection. *)
Theorem responses_hide_password (oid random secret : string) (now : Z)
    (req : Request) (db : collection) :
  hidesPassword (body (registerUser oid now random req db).1)
  /\ hidesPassword (body (loginUser secret now req db))
  /\ hidesPassword (body (getProfile req db))
  /\ hidesPassword (body (profileRoute secret now req db)).
Proof.
  assert (hidesPassword (body (getProfile req db))
          /\ forall req', hidesPassword (body (getProfile req' db))) as [Hprofile Hany].
  { assert (forall r, hidesPassword (body (getProfile r db))) as Hall; [|by split].
    intros r. unfold getProfile.
    destruct (user r) as [claim|]; cbn [bind]; [|done].
    destruct (User_findById _ db) as [[d|]|]; cbn [bind]; [|done..].
    apply lookup_delete_eq. }
  split; [|split; [|split; [done|]]].
  - unfold registerUser, User_findOne. cbn [bind].
    destruct (List.find _ db); [done|].
    destruct (hashPassword _ _); cbn [bind]; [|done].
    by destruct (User_save _ _ _ _ _ db).
  - unfold loginUser.
    destruct (User_findOne _ db) as [[u|]|]; cbn [bind]; [|done..].
    destruct (comparePasswords _ _) as [[]|]; cbn [bind negb]; [|done..].
    destruct (generateToken _ _ _); cbn [bind]; [|done].
    cbn [body hidesPassword]. by simplify_map_eq.
  - unfold profileRoute, authenticateUser.
    destruct (header req "Authorization") as [h|]; [|done].
    destruct (negb _); [done|].
    destruct (jwt_verify _ _ _); [apply Hany|].
    cbn [invalidToken body hidesPassword]. by simplify_map_eq.
Qed.

(** The Access Guard reads the second word of the header only: text
    after a further space is never looked at, and a header that has
    nothing, or a space, right after the prefix is answered as an
    invalid token (the verifier is given no token), not as a missing
    one. *)
Theorem authenticateUser_second_word (secret : string) (now : Z) (req : Request) :
  (forall t rest,
     lacks " " t = true ->
     header req "Authorization" = Some ("Bearer " +:+ t +:+ String " " rest) ->
     authenticateUser secret now req
     = match jwt_verify t secret now with
       | Resolved decoded =>
           Next (mkRequest (headers req) (req_body req) (Some decoded))
       | Thrown e => Respond (invalidToken e)
       end)
  /\ (forall rest,
        header req "Authorization" = Some ("Bearer " +:+ rest) ->
        rest = EmptyString \/ (exists r, rest = String " " r) ->
        authenticateUser secret now req
        = Respond (invalidToken (JsonWebTokenError "jwt must be provided"))).
Proof.
  split.
  - intros t rest Ht Hh.
    rewrite (authenticateUser_verified _ _ _ _ Hh (startsWith_Bearer _)).
    by rewrite bearerToken_second_word.
  - intros rest Hh Hrest.
    rewrite (authenticateUser_verified _ _ _ _ Hh (startsWith_Bearer _)).
    assert (bearerToken ("Bearer " +:+ rest) = EmptyString) as ->; [|done].
    destruct Hrest as [->|[r ->]]; [done|].
    by apply (bearerToken_second_word EmptyString r).
Qed.

(** The controller's catch block: [getProfile] without an attached
    claim answers 500, and so does the profile route for a token that
    verifies but whose id does not cast to an ObjectId. *)
Theorem profile_errors (secret : string) (now : Z) (req : Request)
    (db : collection) :
  (user req = None ->
   getProfile req db = mkResponse 500 (error_body "Error fetching profile"))
  /\ (forall h decoded v,
        header req "Authorization" = Some h ->
        startsWith "Bearer " h = true ->
        jwt_verify (bearerToken h) secret now = Resolved decoded ->
        decoded !! "id" = Some v ->
        castObjectId v = None ->
        profileRoute secret now req db
        = mkResponse 500 (error_body "Error fetching profile")).
Proof.
  split.
  - intros Hnone. unfold getProfile. by rewrite Hnone.
  - intros h decoded v Hh Hp Hv Hid Hcast. unfold profileRoute.
    rewrite (authenticateUser_verified _ _ _ h), Hv by done.
    unfold getProfile, User_findById. cbn [user bind].
    by rewrite Hid, Hcast.
Qed.

(** The token of a successful login stops working: presented once
    the clock has reached [iat + 3600] seconds, the profile route
    answers 401 Invalid Token, whatever the collection holds. *)
Theorem login_token_expires (secret : string) (now now' : Z)
    (req req' : Request) (db db' : collection) (token : string) (usr : obj) :
  loginUser secret now req db = mkResponse 200 (LoginJson token usr) ->
  header req' "Authorization" = Some ("Bearer " +:+ token) ->
  clockTimestamp now + 3600 <= clockTimestamp now' ->
  profileRoute secret now' req' db'
  = mkResponse 401 (Json {[ "message" := JStr "Invalid Token";
                            "error" := JStr "jwt expired" ]}).
Proof.
  intros Hlogin Hh Hnow. revert Hlogin. unfold loginUser.
  destruct (User_findOne _ db) as [[u|]|]; cbn [bind]; [|done..].
  destruct (comparePasswords _ (password u)) as [[]|]; cbn [bind negb]; [|done..].
  destruct (generateToken u secret now) as [t|] eqn:Htoken; cbn [bind]; [|done].
  intros [= <- <-]. apply generateToken_inv in Htoken as [Hs ->].
  unfold profileRoute.
  rewrite (authenticateUser_verified _ _ _ _ Hh (startsWith_Bearer _)).
  rewrite bearerToken_issued, verify_issuedToken by done.
  by destruct (Z.leb_spec (clockTimestamp now + 3600) (clockTimestamp now')); [|lia].
Qed.

(** A token tells its user and its second of issue: if
    [generateToken] gave the same token twice, it was for the same id
    and email, in the same second. *)
Theorem generateToken_injective (u1 u2 : UserDoc) (secret1 secret2 : string)
    (now1 now2 : Z) (token : string) :
  generateToken u1 secret1 now1 = Resolved token ->
  generateToken u2 secret2 now2 = Resolved token ->
  _id u1 = _id u2 /\ email u1 = email u2
  /\ clockTimestamp now1 = clockTimestamp now2.
Proof.
  intros [_ ->]%generateToken_inv [_ Heq]%generateToken_inv.
  apply (f_equal (split ".")) in Heq. unfold issuedToken in Heq.
  rewrite !split_jws_sign in Heq.
  apply (f_equal (fun l => l !! 1%nat)) in Heq. injection Heq as Hpayload.
  apply (f_equal decodeSegment) in Hpayload.
  rewrite !decodeSegment_encodeSegment in Hpayload
    by apply jsonObject_stampedClaim.
  apply (inj Some) in Hpayload.
  pose proof (f_equal (lookup "id") Hpayload) as Hid.
  pose proof (f_equal (lookup "email") Hpayload) as Hemail.
  pose proof (f_equal (lookup "iat") Hpayload) as Hiat.
  rewrite !stampedClaim_id in Hid. rewrite !stampedClaim_email in Hemail.
  unfold stampedClaim in Hiat. simplify_map_eq. done.
Qed.

End ControllerProperties.

(** * The User schema: patterns and validators *)

Lemma app_empty_inv (s t : string) :
  s +:+ t = EmptyString -> s = EmptyString /\ t = EmptyString.
Proof. by destruct s. Qed.

Lemma app_empty_r (s : string) : s +:+ EmptyString = s.
Proof. induction s as [|c s IH]; [done|]. by rewrite app_String, IH. Qed.

Lemma app_cons_inv (s t u : string) (c : ascii) :
  s +:+ t = String c u ->
  (s = EmptyString /\ t = String c u)
  \/ exists s', s = String c s' /\ u = s' +:+ t.
Proof.
  destruct s as [|d s]; [by left|]. rewrite app_String.
  intros [= -> <-]. right. by exists s.
Qed.

Lemma nullable_lang (r : regex) : nullable r = true <-> lang r EmptyString.
Proof.
  split.
  - induction r as [| |f|r1 IH1 r2 IH2|r1 IH1 r2 IH2|r IH]; simpl; try done.
    + intros _. constructor.
    + intros [H1 H2]%andb_true_iff.
      apply (lang_Cat r1 r2 EmptyString EmptyString); auto.
    + intros [H1|H2]%orb_true_iff; [apply lang_Alt_l|apply lang_Alt_r]; auto.
    + intros _. constructor.
  - intros Hl. remember EmptyString as s eqn:Hs.
    induction Hl as [|f c Hc|r1 r2 s1 s2 _ IH1 _ IH2|r1 r2 s _ IH|r1 r2 s _ IH
                    |r|r s1 s2 _ _ _ _]; simpl; try done.
    + apply app_empty_inv in Hs as [-> ->]. by rewrite IH1, IH2.
    + by rewrite IH.
    + rewrite IH by done. apply orb_true_r.
Qed.

Lemma deriv_lang (c : ascii) (r : regex) (s : string) :
  lang (deriv c r) s <-> lang r (String c s).
Proof.
  split.
  - revert s.
    induction r as [| |f|r1 IH1 r2 IH2|r1 IH1 r2 IH2|r IH]; simpl; intros s Hl.
    + inversion Hl.
    + inversion Hl.
    + destruct (f c) eqn:Hc; inversion Hl; subst. by constructor.
    + assert (forall t, lang (Cat (deriv c r1) r2) t -> lang (Cat r1 r2) (String c t))
        as Hcat.
      { intros t Ht. inversion Ht as [| |? ? s1 s2 H1 H2| | | |]; subst.
        apply (lang_Cat r1 r2 (String c s1) s2); auto. }
      destruct (nullable r1) eqn:Hn; [|by apply Hcat].
      inversion Hl as [| | |? ? ? Hleft|? ? ? Hright| |]; subst; [by apply Hcat|].
      apply (lang_Cat r1 r2 EmptyString (String c s)); [|auto].
      by apply nullable_lang.
    + inversion Hl; subst; [apply lang_Alt_l|apply lang_Alt_r]; auto.
    + inversion Hl as [| |? ? s1 s2 H1 H2| | | |]; subst.
      apply (lang_Star_cons r (String c s1) s2); auto.
  - intros Hl. remember (String c s) as t eqn:Ht. revert s Ht.
    induction Hl as [|f d Hd|r1 r2 s1 s2 H1 IH1 H2 IH2|r1 r2 t _ IH|r1 r2 t _ IH
                    |r|r s1 s2 H1 IH1 H2 IH2]; intros s Ht; simpl.
    + done.
    + injection Ht as -> <-. rewrite Hd. constructor.
    + apply app_cons_inv in Ht as [[-> ->]|(s' & -> & ->)].
      * apply nullable_lang in H1 as ->. apply lang_Alt_r. by apply IH2.
      * destruct (nullable r1); [apply lang_Alt_l|]; constructor; auto.
    + apply lang_Alt_l. by apply IH.
    + apply lang_Alt_r. by apply IH.
    + done.
    + apply app_cons_inv in Ht as [[-> ->]|(s' & -> & ->)].
      * by apply IH2.
      * constructor; auto.
Qed.

(** The matcher decides the language. *)
Lemma matches_lang (r : regex) (s : string) : matches r s = true <-> lang r s.
Proof.
  revert r. induction s as [|c s IH]; intros r; simpl.
  - apply nullable_lang.
  - rewrite IH. apply deriv_lang.
Qed.

Lemma lang_forallb (P : ascii -> bool) (r : regex) (s : string) :
  within P r -> lang r s -> string_forallb P s = true.
Proof.
  intros Hr Hl.
  induction Hl as [|f c Hc|r1 r2 s1 s2 _ IH1 _ IH2|r1 r2 s _ IH|r1 r2 s _ IH
                  |r|r s1 s2 _ IH1 _ IH2]; simpl in Hr |- *.
  - done.
  - by rewrite (Hr c Hc).
  - destruct Hr as [Hr1 Hr2]. by rewrite string_forallb_app, IH1, IH2.
  - apply IH, Hr.
  - apply IH, Hr.
  - done.
  - by rewrite string_forallb_app, IH1, IH2.
Qed.

Lemma lang_Chars_inv (f : ascii -> bool) (s : string) :
  lang (Chars f) s -> exists c, s = String c EmptyString /\ f c = true.
Proof. intros Hl. inversion Hl; subst. eauto. Qed.

Lemma lang_Cat_inv (r1 r2 : regex) (s : string) :
  lang (Cat r1 r2) s -> exists s1 s2, s = s1 +:+ s2 /\ lang r1 s1 /\ lang r2 s2.
Proof. intros Hl. inversion Hl; subst. eauto. Qed.

Lemma lang_Plus_Chars (f : ascii -> bool) (s : string) :
  s <> EmptyString -> string_forallb f s = true -> lang (Plus (Chars f)) s.
Proof.
  destruct s as [|c s]; [done|]. intros _. simpl. intros [Hc Hs]%andb_true_iff.
  apply (lang_Cat (Chars f) (Star (Chars f)) (String c EmptyString) s);
    [by constructor|].
  induction s as [|d s IH]; [constructor|].
  simpl in Hs. apply andb_true_iff in Hs as [Hd Hs].
  apply (lang_Star_cons (Chars f) (String d EmptyString) s); [by constructor|auto].
Qed.

Lemma lang_Plus_Chars_nonempty (f : ascii -> bool) (r : regex) (s : string) :
  lang (Cat (Chars f) r) s -> s <> EmptyString.
Proof.
  intros (s1 & s2 & -> & (c & -> & _)%lang_Chars_inv & _)%lang_Cat_inv. done.
Qed.

(** The last repetition of a starred pattern. *)
Lemma lang_Star_last (r : regex) (s : string) :
  lang (Star r) s ->
  s = EmptyString
  \/ exists s1 s2, s = s1 +:+ s2 /\ lang (Star r) s1 /\ lang r s2.
Proof.
  intros Hl. remember (Star r) as q eqn:Hq.
  induction Hl as [| | | | |r'|r' s1 s2 H1 _ H2 IH2]; try done.
  - by left.
  - injection Hq as ->. right. destruct (IH2 eq_refl) as [->|(a & b & -> & Ha & Hb)].
    + exists EmptyString, s1. rewrite app_empty_r. split; [done|].
      split; [constructor|done].
    + exists (s1 +:+ a), b. rewrite app_assoc_string. split; [done|].
      split; [by constructor|done].
Qed.

Lemma lang_Plus_last (r : regex) (s : string) :
  lang (Plus r) s -> exists s1 s2, s = s1 +:+ s2 /\ lang r s2.
Proof.
  intros (a & b & -> & Ha & Hb)%lang_Cat_inv.
  destruct (lang_Star_last _ _ Hb) as [->|(b1 & b2 & -> & _ & Hb2)].
  - exists EmptyString, a. by rewrite app_empty_r.
  - exists (a +:+ b1), b2. by rewrite app_assoc_string.
Qed.

Lemma lang_topLevel (s : string) :
  lang topLevel s ->
  exists t, s = String "." t /\ string_forallb word t = true
            /\ (String.length t = 2%nat \/ String.length t = 3%nat).
Proof.
  intros (s1 & r1 & -> & (c1 & -> & Hc1)%lang_Chars_inv
          & (s2 & r2 & -> & (c2 & -> & Hc2)%lang_Chars_inv
             & (s3 & r3 & -> & (c3 & -> & Hc3)%lang_Chars_inv & Hopt)%lang_Cat_inv
            )%lang_Cat_inv)%lang_Cat_inv.
  apply Ascii.eqb_eq in Hc1 as <-.
  inversion Hopt as [| | |? ? ? Heps|? ? ? Hw| |]; subst.
  - inversion Heps; subst. exists (String c2 (String c3 EmptyString)).
    split; [done|]. simpl. rewrite Hc2, Hc3. auto.
  - apply lang_Chars_inv in Hw as (c4 & -> & Hc4).
    exists (String c2 (String c3 (String c4 EmptyString))).
    split; [done|]. simpl. rewrite Hc2, Hc3, Hc4. auto.
Qed.

Lemma within_labels : within addressChar labels.
Proof.
  unfold addressChar. repeat split; intros c Hc; rewrite Hc;
    auto using orb_true_r.
Qed.

Lemma within_topLevel : within addressChar topLevel.
Proof.
  unfold addressChar, dotOrDash. repeat split; intros c Hc;
    try (rewrite Hc; auto using orb_true_r).
  apply Ascii.eqb_eq in Hc as <-. done.
Qed.

Lemma lang_labels_nonempty (s : string) : lang labels s -> s <> EmptyString.
Proof.
  intros (s1 & s2 & -> & H1 & _)%lang_Cat_inv.
  apply lang_Plus_Chars_nonempty in H1. by destruct s1.
Qed.

(** An email that the schema accepts has exactly one at sign, with
    something on either side, and is otherwise made of letters, digits,
    underscores, dots and dashes: no space and no plus sign. *)
Theorem email_one_at (e : string) :
  matches emailPattern e = true ->
  exists l d,
    e = l +:+ String "@" d
    /\ l <> EmptyString /\ d <> EmptyString
    /\ string_forallb addressChar l = true
    /\ string_forallb addressChar d = true.
Proof.
  intros (l & r1 & -> & Hl & (a & d & -> & (c & -> & Hc)%lang_Chars_inv & Hd)%lang_Cat_inv
         )%matches_lang%lang_Cat_inv.
  apply Ascii.eqb_eq in Hc as <-. exists l, d. split; [done|].
  split; [by apply lang_labels_nonempty|].
  split.
  - apply lang_Cat_inv in Hd as (d1 & d2 & -> & Hd1 & _).
    apply lang_labels_nonempty in Hd1. by destruct d1.
  - split; [apply (lang_forallb _ labels); [apply within_labels|done]|].
    apply (lang_forallb _ (Cat labels (Plus topLevel))); [|done].
    split; [apply within_labels|]. split; apply within_topLevel.
Qed.

(** An email that the schema accepts ends in a dot followed by two
    or three word characters: an address whose last label is longer,
    such as one in [.info], is refused. *)
Theorem email_top_level (e : string) :
  matches emailPattern e = true ->
  exists p t,
    e = p +:+ String "." t
    /\ p <> EmptyString
    /\ string_forallb word t = true
    /\ (String.length t = 2%nat \/ String.length t = 3%nat).
Proof.
  intros (l & r1 & -> & Hl & (a & r2 & -> & _ & (d & r3 & -> & _ & Ht)%lang_Cat_inv
         )%lang_Cat_inv)%matches_lang%lang_Cat_inv.
  apply lang_Plus_last in Ht as (t1 & t2 & -> & (t & -> & Hw & Hlen)%lang_topLevel).
  exists (l +:+ a +:+ d +:+ t1), t. split.
  - by rewrite !app_assoc_string.
  - split; [|done]. apply lang_labels_nonempty in Hl. by destruct l.
Qed.

(** The schema accepts every address of the plain shape
    [local@domain.tld], the local part and the domain non-empty words
    and the last label two or three word characters. *)
Theorem email_simple_accepted (l d t : string) :
  l <> EmptyString -> string_forallb word l = true ->
  d <> EmptyString -> string_forallb word d = true ->
  string_forallb word t = true ->
  String.length t = 2%nat \/ String.length t = 3%nat ->
  matches emailPattern (l +:+ String "@" (d +:+ String "." t)) = true.
Proof.
  intros Hl Hlw Hd Hdw Htw Hlen. apply matches_lang.
  assert (forall s, s <> EmptyString -> string_forallb word s = true ->
                    lang labels s) as Hlabels.
  { intros s Hs Hw. rewrite <- (app_empty_r s).
    apply (lang_Cat _ _ s EmptyString); [by apply lang_Plus_Chars|constructor]. }
  apply (lang_Cat labels _ l); [by apply Hlabels|].
  apply (lang_Cat _ _ (String "@" EmptyString) (d +:+ String "." t));
    [by constructor|].
  apply (lang_Cat labels _ d); [by apply Hlabels|].
  rewrite <- (app_empty_r (String "." t)).
  apply (lang_Cat topLevel (Star topLevel) (String "." t) EmptyString);
    [|constructor].
  apply (lang_Cat _ _ (String "." EmptyString) t); [by constructor|].
  destruct t as [|c1 [|c2 [|c3 [|c4 t]]]]; simpl in Hlen, Htw;
    try (destruct Hlen; discriminate).
  - apply andb_true_iff in Htw as [H1 [H2 _]%andb_true_iff].
    apply (lang_Cat _ _ (String c1 EmptyString) (String c2 EmptyString));
      [by constructor|].
    rewrite <- (app_empty_r (String c2 EmptyString)).
    apply (lang_Cat _ _ (String c2 EmptyString) EmptyString); [by constructor|].
    apply lang_Alt_l. constructor.
  - apply andb_true_iff in Htw as [H1 [H2 [H3 _]%andb_true_iff]%andb_true_iff].
    apply (lang_Cat _ _ (String c1 EmptyString) (String c2 (String c3 EmptyString)));
      [by constructor|].
    apply (lang_Cat _ _ (String c2 EmptyString) (String c3 EmptyString));
      [by constructor|].
    apply lang_Alt_r. by constructor.
Qed.

Section ReadmeSchema.
Context `{!Jws, !BcryptCore}.
Variable cast : jsval -> option string.

(** Registration under the README's schema, for a name and an email
    of ASCII characters: [registerUser] answers 201 exactly when no
    stored user has the lower-cased email, the trimmed name has two
    characters or more and the lower-cased email matches the pattern.
    The password plays no part: the validators of the password field
    see the hash, which is never shorter than six characters. *)
Theorem registerUser_readme_schema (oid : string) (now : Z) (random : string)
    (req : Request) (db : collection) :
  isAscii (body_name (req_body req)) = true ->
  isAscii (body_email (req_body req)) = true ->
  validSalt random ->
  (@registerUser _ (readmeSchema cast) oid now random req db).1
  = mkResponse 201 (message_body "User registered successfully")
  <-> (forall u, In u db -> email u <> toLowerCase (body_email (req_body req)))
      /\ (2 <= String.length (trim (body_name (req_body req))))%nat
      /\ matches emailPattern (toLowerCase (body_email (req_body req))) = true.
Proof.
  intros _ _ Hsalt. unfold registerUser, User_findOne, User_save. cbn [bind].
  set (n := trim (body_name (req_body req))).
  set (e := toLowerCase (body_email (req_body req))).
  destruct (List.find _ db) as [u|] eqn:Hfind.
  { split; [done|]. intros (Hnew & _).
    apply List.find_some in Hfind as [Hin Heq%String.eqb_eq]. by destruct (Hnew u). }
  assert (forall u, In u db -> email u <> e) as Hnew.
  { intros u Hin. apply String.eqb_neq. by apply (List.find_none _ _ Hfind). }
  rewrite hashPassword_resolved by done. cbn [bind email].
  rewrite existsb_email_false by done.
  set (h := render _ +:+ digest _ _).
  assert (String.length h = 60%nat) as Hlen
    by (apply hash_length; [done|apply bcrypt_raw_length]).
  cbn [schemaValid readmeSchema]. unfold userValid. cbn [name email password].
  assert (required h && minlength 6 h = true) as ->.
  { unfold minlength. rewrite Hlen. by destruct h. }
  rewrite andb_true_r.
  destruct n as [|c1 [|c2 n]]; [split; [done|simpl; lia]..|].
  destruct e as [|c e].
  { split; [done|]. by intros (_ & _ & ?). }
  cbn [required minlength String.length matchPattern andb Nat.leb negb bind fst].
  destruct (matches emailPattern (String c e)).
  - split; [|done]. intros _. repeat split; [done|lia].
  - split; [done|]. by intros (_ & _ & ?).
Qed.

End ReadmeSchema.

(** * The claims on the run of the testing guide *)

Import Reference Scenario.

(** Closed goals over the reference instances are settled by evaluation. *)
Ltac evaluate := vm_compute; reflexivity.
Ltac differ := let H := fresh in intros H; vm_compute in H; discriminate H.

Lemma secret_not_empty : JWT_SECRET <> EmptyString.
Proof. differ. Qed.

(** John's token, verified a second before it expires. *)
Lemma verify_generateToken_witness :
  exists token decoded,
    generateToken john JWT_SECRET t0 = Resolved token
    /\ jwt_verify token JWT_SECRET inTime = Resolved decoded
    /\ decoded = <["exp" := JNum (clockTimestamp t0 + 3600)]>
                   (<["iat" := JNum (clockTimestamp t0)]> (identityClaim john))
    /\ decoded !! "id" = Some (JStr (_id john))
    /\ decoded !! "email" = Some (JStr (email john)).
Proof.
  apply (verify_generateToken john JWT_SECRET t0 inTime); [differ|evaluate].
Defined.

(** C1, as stated, fails: the payload decoded from John's token is not
    his Identity Claim, it carries [iat] and [exp] as well. *)
Lemma verify_generateToken_not_exact :
  exists token decoded,
    generateToken john JWT_SECRET t0 = Resolved token
    /\ jwt_verify token JWT_SECRET t0 = Resolved decoded
    /\ decoded !! "exp" = Some (JNum 1710932400)
    /\ decoded <> identityClaim john.
Proof.
  exists (issuedToken john JWT_SECRET t0), (stampedClaim john t0).
  split; [apply generateToken_resolved, secret_not_empty|].
  split; [rewrite verify_issuedToken by apply secret_not_empty; evaluate|].
  split; [evaluate|apply stampedClaim_not_claim].
Qed.

(** No header, the wrong scheme, a malformed token and John's token. *)
Lemma authenticateUser_guard_witness :
  authenticateUser JWT_SECRET inTime anonymous = Respond accessDenied
  /\ authenticateUser JWT_SECRET inTime (authorized "Token xyz")
     = Respond accessDenied
  /\ authenticateUser JWT_SECRET inTime (bearer "abc")
     = Respond (invalidToken (JsonWebTokenError "jwt malformed"))
  /\ authenticateUser JWT_SECRET inTime (bearer johnToken)
     = Next (mkRequest (headers (bearer johnToken)) noBody
               (Some (stampedClaim john t0))).
Proof.
  split.
  { apply (proj1 (authenticateUser_guard JWT_SECRET inTime anonymous)).
    evaluate. }
  split.
  { destruct (authenticateUser_guard JWT_SECRET inTime (authorized "Token xyz"))
      as (_ & Hscheme & _).
    apply (Hscheme "Token xyz"); evaluate. }
  split.
  { destruct (authenticateUser_guard JWT_SECRET inTime (bearer "abc"))
      as (_ & _ & Hinvalid & _).
    apply (Hinvalid "Bearer abc"); evaluate. }
  destruct (authenticateUser_guard JWT_SECRET inTime (bearer johnToken))
    as (_ & _ & _ & Hvalid & _).
  apply (Hvalid ("Bearer " +:+ johnToken)); evaluate.
Defined.

(** The password of the testing guide against its own hash. *)
Lemma compare_hashPassword_witness :
  exists h, hashPassword salt0 "123456" = Resolved h
            /\ comparePasswords "123456" h = Resolved true.
Proof. apply (compare_hashPassword "123456" salt0). split; evaluate. Defined.

(** The same password hashed under two salts. *)
Lemma hashPassword_fresh_salt_witness :
  exists h1 h2, hashPassword salt0 "123456" = Resolved h1
                /\ hashPassword salt1 "123456" = Resolved h2
                /\ h1 <> h2.
Proof.
  apply (hashPassword_fresh_salt "123456" salt0 salt1);
    [split; evaluate|split; evaluate|differ].
Defined.

(** A wrong password against John's hash: an answer, and it is false. *)
Lemma comparePasswords_mismatch_witness :
  (exists b, comparePasswords "654321" johnHash = Resolved b)
  /\ comparePasswords "654321" johnHash = Resolved false.
Proof.
  destruct (comparePasswords_mismatch "654321" johnHash) as (Hwf & _ & Hmis).
  split.
  - apply Hwf.
    change johnHash with (render (mkSalt "a" 10 salt0)
                          +:+ digest (mkSalt "a" 10 salt0) "123456").
    apply wellFormed; [evaluate|simpl; lia|split; evaluate|evaluate].
  - apply (Hmis (render (mkSalt "a" 10 salt0)
                 +:+ digest (mkSalt "a" 10 salt0) "654321")); [evaluate|differ].
Defined.

(** John's token, presented the instant it has expired. *)
Lemma invalidToken_rejection_witness :
  exists o,
    authenticateUser JWT_SECRET expired (bearer johnToken)
    = Respond (mkResponse 401 (Json o))
    /\ o !! "message" = Some (JStr "Invalid Token")
    /\ o !! "error" = Some (JStr "jwt expired")
    /\ dom o = {[ "message"; "error" ]}.
Proof.
  apply (invalidToken_rejection JWT_SECRET expired (bearer johnToken)
           ("Bearer " +:+ johnToken) TokenExpiredError); evaluate.
Defined.

(** C4, as stated, fails: the response to John's expired token and the
    response to a malformed token differ in their [error] field. *)
Lemma invalidToken_tells_expired_from_malformed :
  authenticateUser JWT_SECRET expired (bearer johnToken)
  = Respond (invalidToken TokenExpiredError)
  /\ authenticateUser JWT_SECRET expired (bearer "abc")
     = Respond (invalidToken (JsonWebTokenError "jwt malformed"))
  /\ invalidToken TokenExpiredError
     <> invalidToken (JsonWebTokenError "jwt malformed").
Proof.
  split; [evaluate|]. split; [evaluate|].
  differ.
Qed.

(** The testing guide: John registers, registers again with his email
    in other letter case, logs in with a wrong password; requests come
    without a token, with a malformed one and with an expired one. *)
Lemma http_outcomes_witness :
  registerUser oid0 t0 salt0 registerJohn []
  = (mkResponse 201 (message_body "User registered successfully"), [john])
  /\ registerUser oid0 t0 salt1 registerJohnAsTyped [john]
     = (mkResponse 400 (message_body "User already exists"), [john])
  /\ loginUser JWT_SECRET t0 wrongPassword []
     = mkResponse 400 (message_body "Invalid credentials")
  /\ loginUser JWT_SECRET t0 wrongPasswordJOHN [john]
     = mkResponse 400 (message_body "Invalid credentials")
  /\ (exists r, authenticateUser JWT_SECRET t0 anonymous = Respond r)
  /\ (exists r, authenticateUser JWT_SECRET t0 (bearer "abc") = Respond r)
  /\ (exists r, authenticateUser JWT_SECRET expired (bearer johnToken)
                = Respond r).
Proof.
  split.
  { apply (proj1 (http_outcomes JWT_SECRET t0 registerJohn [])
             oid0 salt0 johnHash [john]);
      [evaluate|evaluate|by intros u []|evaluate|evaluate]. }
  split.
  { destruct (http_outcomes JWT_SECRET t0 registerJohnAsTyped [john])
      as (_ & Hdup & _).
    apply (Hdup oid0 salt1 john); [evaluate|by left|evaluate]. }
  split.
  { destruct (http_outcomes JWT_SECRET t0 wrongPassword [])
      as (_ & _ & Hunknown & _).
    apply Hunknown; [evaluate|by intros u []]. }
  split.
  { destruct (http_outcomes JWT_SECRET t0 wrongPasswordJOHN [john])
      as (_ & _ & _ & Hwrong & _).
    apply (Hwrong john); evaluate. }
  split.
  { destruct (http_outcomes JWT_SECRET t0 anonymous [])
      as (_ & _ & _ & _ & _ & Hmissing & _).
    apply Hmissing. evaluate. }
  split.
  { destruct (http_outcomes JWT_SECRET t0 (bearer "abc") [])
      as (_ & _ & _ & _ & _ & _ & Hinvalid & _).
    apply (Hinvalid "Bearer abc" (JsonWebTokenError "jwt malformed")); evaluate. }
  destruct (http_outcomes JWT_SECRET expired (bearer johnToken) [])
    as (_ & _ & _ & _ & _ & _ & _ & Hexpired).
  apply (Hexpired john t0 johnToken); [evaluate|reflexivity|by vm_compute].
Defined.

(** John's profile. *)
Lemma getProfile_response_witness :
  exists o,
    getProfile johnsRequest [john] = mkResponse 200 (Json o)
    /\ o !! "password" = None
    /\ o = delete "password" (toObject john)
    /\ o !! "_id" = Some (JStr oid0)
    /\ o !! "name" = Some (JStr "John Doe")
    /\ o !! "email" = Some (JStr "john@example.com")
    /\ o !! "createdAt" = Some (JDate t0)
    /\ o !! "updatedAt" = Some (JDate t0)
    /\ dom o = {[ "_id"; "name"; "email"; "createdAt"; "updatedAt"; "__v" ]}.
Proof.
  apply (getProfile_response johnsRequest [john] (stampedClaim john t0) john);
    evaluate.
Defined.

(** C8, as stated, fails: John's profile holds more than an id, a name
    and an email; the timestamps of his record are in it. *)
Lemma getProfile_returns_timestamps :
  exists o,
    getProfile johnsRequest [john] = mkResponse 200 (Json o)
    /\ o !! "createdAt" = Some (JDate t0)
    /\ o !! "updatedAt" = Some (JDate t0)
    /\ dom o <> {[ "id"; "name"; "email" ]}
    /\ dom o <> {[ "_id"; "name"; "email" ]}.
Proof.
  exists (toJSON_transform (select_minus "password" (toObject john))).
  split; [evaluate|]. split; [evaluate|]. split; [evaluate|].
  rewrite profile_fields, !dom_insert_L, dom_singleton_L.
  split; intros Heq;
    assert ("createdAt" ∈ ({[ "id"; "name"; "email" ]} : gset string)
            \/ "createdAt" ∈ ({[ "_id"; "name"; "email" ]} : gset string)) as Hin
      by (rewrite <- Heq; set_solver);
    set_solver.
Qed.

(** John's token after his record is gone from the collection. *)
Lemma profile_of_missing_user_witness :
  (exists req', authenticateUser JWT_SECRET inTime (bearer johnToken) = Next req')
  /\ profileRoute JWT_SECRET inTime (bearer johnToken) []
     = mkResponse 404 (message_body "User not found")
  /\ status (profileRoute JWT_SECRET inTime (bearer johnToken) []) <> 401.
Proof.
  apply (profile_of_missing_user JWT_SECRET inTime (bearer johnToken) []
           ("Bearer " +:+ johnToken) (stampedClaim john t0)); evaluate.
Defined.

(** * The further properties on the run of the testing guide *)

(** John's registration as typed, into an empty collection: what is
    stored is his name without the padding, his email in lower case and
    his hash. *)
Lemma registerUser_effect_witness :
  exists h,
    hashPassword salt0 "123456" = Resolved h
    /\ [john] = [] ++ [mkUser oid0 "John Doe" "john@example.com" h t0 t0 0].
Proof.
  destruct (registerUser_effect oid0 t0 salt0 registerJohnAsTyped [] [john]
              (mkResponse 201 (message_body "User registered successfully")))
    as [(_ & _ & Hstored)|[(Hstatus & _)|(Hstatus & _)]].
  - evaluate.
  - evaluate.
  - evaluate.
  - exact Hstored.
  - discriminate Hstatus.
  - discriminate Hstatus.
Defined.

(** A second registration of John leaves him the only John. *)
Lemma registerUser_unique_emails_witness :
  NoDup (email <$> (registerUser oid0 t0 salt1 registerJohn [john]).2).
Proof.
  apply (registerUser_unique_emails oid0 t0 salt1 registerJohn [john]).
  apply (bool_decide_unpack _). evaluate.
Defined.

(** John registers as typed and logs in the same way, a second before
    his token would expire. *)
Lemma register_then_login_witness :
  exists token,
    loginUser JWT_SECRET inTime registerJohnAsTyped [john]
    = mkResponse 200
        (LoginJson token {[ "id" := JStr oid0;
                            "name" := JStr "John Doe";
                            "email" := JStr "john@example.com" ]})
    /\ jwt_verify token JWT_SECRET inTime
       = Resolved (<["exp" := JNum (clockTimestamp inTime + 3600)]>
                     (<["iat" := JNum (clockTimestamp inTime)]>
                        {[ "id" := JStr oid0;
                           "email" := JStr "john@example.com" ]})).
Proof.
  apply (register_then_login oid0 t0 inTime salt0 JWT_SECRET registerJohnAsTyped
           [] [john]); [evaluate|evaluate|evaluate|differ].
Defined.

(** John's login with his email in capitals. *)
Lemma loginUser_success_witness :
  (exists u token,
     In u [john] /\ email u = "john@example.com"
     /\ generateToken u JWT_SECRET t0 = Resolved token
     /\ johnsLogin = LoginJson token
                       {[ "id" := JStr (_id u); "name" := JStr (name u);
                          "email" := JStr (email u) ]})
  /\ status (loginUser JWT_SECRET t0 loginJOHN [john]) = 200.
Proof.
  destruct (loginUser_success JWT_SECRET t0 loginJOHN [john]) as [Hiff Hbody];
    [evaluate|].
  split.
  - apply (Hbody johnsLogin). evaluate.
  - apply Hiff. exists john. split; [evaluate|]. split; [evaluate|differ].
Defined.

(** John logs in with his email in capitals and reads his profile. *)
Lemma login_then_profile_witness :
  exists u,
    In u [john] /\ email u = "john@example.com"
    /\ ({[ "id" := JStr oid0; "name" := JStr "John Doe";
           "email" := JStr "john@example.com" ]} : obj) !! "id"
       = Some (JStr (_id u))
    /\ profileRoute JWT_SECRET inTime (bearer johnToken) [john]
       = mkResponse 200 (Json (delete "password" (toObject u))).
Proof.
  apply (login_then_profile JWT_SECRET t0 inTime loginJOHN (bearer johnToken)
           [john] johnToken).
  - evaluate.
  - evaluate.
  - reflexivity.
  - evaluate.
  - apply (bool_decide_unpack _). evaluate.
  - intros u [<-|[]]. reflexivity.
Defined.

(** The route answered John's request with 200: it carried his token. *)
Lemma profileRoute_protected_witness :
  exists h decoded v d,
    header (bearer johnToken) "Authorization" = Some h
    /\ startsWith "Bearer " h = true
    /\ jwt_verify (bearerToken h) JWT_SECRET inTime = Resolved decoded
    /\ decoded !! "id" = Some v
    /\ castObjectId v = Some (_id d)
    /\ In d [john]
    /\ profileRoute JWT_SECRET inTime (bearer johnToken) [john]
       = mkResponse 200 (Json (delete "password" (toObject d))).
Proof.
  apply (proj1 (profileRoute_protected JWT_SECRET inTime (bearer johnToken) [john])).
  evaluate.
Defined.

(** A malformed token followed by more text, and a bare prefix. *)
Lemma authenticateUser_second_word_witness :
  authenticateUser JWT_SECRET t0 (authorized "Bearer abc def ghi")
  = Respond (invalidToken (JsonWebTokenError "jwt malformed"))
  /\ authenticateUser JWT_SECRET t0 (authorized "Bearer ")
     = Respond (invalidToken (JsonWebTokenError "jwt must be provided")).
Proof.
  split.
  - destruct (authenticateUser_second_word JWT_SECRET t0
                (authorized "Bearer abc def ghi")) as [Hword _].
    apply (Hword "abc" "def ghi"); evaluate.
  - destruct (authenticateUser_second_word JWT_SECRET t0 (authorized "Bearer "))
      as [_ Hnone].
    apply (Hnone EmptyString); [evaluate|by left].
Defined.

(** A request that skipped the guard, and a token whose id is a number. *)
Lemma profile_errors_witness :
  getProfile anonymous [john]
  = mkResponse 500 (error_body "Error fetching profile")
  /\ profileRoute JWT_SECRET t0 (bearer numericIdToken) [john]
     = mkResponse 500 (error_body "Error fetching profile").
Proof.
  split.
  - apply (proj1 (profile_errors JWT_SECRET t0 anonymous [john])). reflexivity.
  - destruct (profile_errors JWT_SECRET t0 (bearer numericIdToken) [john])
      as [_ Hcast].
    apply (Hcast ("Bearer " +:+ numericIdToken) {[ "id" := JNum 7 ]} (JNum 7));
      evaluate.
Defined.

(** John's token, presented the instant it has expired. *)
Lemma login_token_expires_witness :
  profileRoute JWT_SECRET expired (bearer johnToken) [john]
  = mkResponse 401 (Json {[ "message" := JStr "Invalid Token";
                            "error" := JStr "jwt expired" ]}).
Proof.
  apply (login_token_expires JWT_SECRET t0 expired registerJohn (bearer johnToken)
           [john] [john] johnToken
           {[ "id" := JStr oid0; "name" := JStr "John Doe";
              "email" := JStr "john@example.com" ]}).
  - evaluate.
  - reflexivity.
  - by vm_compute.
Defined.

(** Two logins of John within one second share their token. *)
Lemma generateToken_injective_witness :
  _id john = _id john /\ email john = email john
  /\ clockTimestamp t0 = clockTimestamp (t0 - 999).
Proof.
  apply (generateToken_injective john john JWT_SECRET JWT_SECRET t0 (t0 - 999)
           johnToken); evaluate.
Defined.

(** John's address. *)
Lemma email_one_at_witness :
  exists l d,
    "john@example.com" = l +:+ String "@" d
    /\ l <> EmptyString /\ d <> EmptyString
    /\ string_forallb addressChar l = true
    /\ string_forallb addressChar d = true.
Proof. apply (email_one_at "john@example.com"). evaluate. Defined.

Lemma email_top_level_witness :
  exists p t,
    "john@example.com" = p +:+ String "." t
    /\ p <> EmptyString
    /\ string_forallb word t = true
    /\ (String.length t = 2%nat \/ String.length t = 3%nat).
Proof. apply (email_top_level "john@example.com"). evaluate. Defined.

Lemma email_simple_accepted_witness :
  matches emailPattern ("john" +:+ String "@" ("example" +:+ String "." "com"))
  = true.
Proof.
  apply (email_simple_accepted "john" "example" "com");
    [differ|evaluate|differ|evaluate|evaluate|right; reflexivity].
Defined.

(** Al registers with a password of one character. *)
Lemma registerUser_readme_schema_witness :
  (@registerUser _ (readmeSchema castObjectId) oid0 t0 salt0 registerAl [john]).1
  = mkResponse 201 (message_body "User registered successfully").
Proof.
  apply (registerUser_readme_schema castObjectId oid0 t0 salt0 registerAl [john]).
  - evaluate.
  - evaluate.
  - split; evaluate.
  - split; [|split; [simpl; lia|evaluate]].
    intros u [<-|[]]. differ.
Defined.
